(** * Matrix knowledge modules: the packager and the loader

    A shallow embedding of [packager/create_module.py] (class
    [KnowledgePackager]) and [loader/download.py] (class
    [MatrixKnowledgeLoader]).

    - Python values are the JSON-like universe [pyval]; a [str] is a Rocq
      string, one character per [ascii] (exact on ASCII text).
    - Python exceptions are the constructors of [exn]; code that can raise
      lives in the error monad [result], code that also touches the file
      system, the clock or [stdout] in the state-and-error monad [M].
    - The library codecs ([json], [pickle], [tarfile], [hashlib], [repr],
      float rounding) are the fields of a [Runtime] record: every theorem
      holds for any choice of them.
    - Every file-system primitive first consults a fault plan carried by the
      state, so an I/O failure can be injected at any step.
    - The coroutines run to completion one after the other: [await] is plain
      sequencing. *)

From Stdlib Require Import ZArith String Ascii List Lia.
From Stdlib Require QArith.
From stdpp Require Import base option list gmap sets strings pretty.

Set Warnings "-register-all".
#[local] Open Scope Z_scope.

(** ** Python values *)

Definition Q := QArith_base.Q.

Inductive pyval :=
| PNone
| PBool (b : bool)
| PInt (z : Z)
| PFloat (q : Q)
| PStr (s : string)
| PList (l : list pyval)
| PDict (d : list (pyval * pyval)).

(** A dict is the list of its items in insertion order. *)
Abbreviation pydict := (list (pyval * pyval)).

(** ** Exceptions and the error monad *)

Inductive exn :=
| KeyError (k : string)
| TypeError
| AttributeError
| FileNotFoundError (p : string)
| FileExistsError (p : string)
| IsADirectoryError (p : string)
| NotADirectoryError (p : string)
| OSError
| ReadError
| JSONDecodeError
| UnpicklingError.

Inductive result (A : Type) :=
| Ok (a : A)
| Raise (e : exn).
Arguments Ok {A} a.
Arguments Raise {A} e.

#[global] Instance result_ret : MRet result := λ A a, Ok a.
#[global] Instance result_bind : MBind result := λ A B f m,
  match m with
  | Ok a => f a
  | Raise e => Raise e
  end.

(** [for x in xs: acc = body(acc, x)], leaving at the first exception. *)
Fixpoint for_each {A S : Type} (body : S → A → result S) (xs : list A) (acc : S)
  : result S :=
  match xs with
  | [] => Ok acc
  | x :: xs' => acc' ← body acc x; for_each body xs' acc'
  end.

(** ** Built-ins *)

Module Py.

(** Numbers compare by value across [bool], [int] and [float]. *)
Definition num_of (v : pyval) : option Q :=
  match v with
  | PBool b => Some (QArith_base.inject_Z (Z.b2z b))
  | PInt z => Some (QArith_base.inject_Z z)
  | PFloat q => Some q
  | _ => None
  end.

(** [a == b] on hashable values, as dict keys are compared. *)
Definition key_eqb (a b : pyval) : bool :=
  match a, b with
  | PNone, PNone => true
  | PStr s, PStr t => String.eqb s t
  | _, _ =>
      match num_of a, num_of b with
      | Some p, Some q => QArith_base.Qeq_bool p q
      | _, _ => false
      end
  end.

Definition hashable (v : pyval) : bool :=
  match v with
  | PList _ | PDict _ => false
  | _ => true
  end.

Fixpoint lookup (d : pydict) (k : pyval) : option pyval :=
  match d with
  | [] => None
  | (k', v) :: d' => if key_eqb k' k then Some v else lookup d' k
  end.

(** [d[k] = v] on a dict: an existing key keeps its place. *)
Fixpoint store (d : pydict) (k v : pyval) : pydict :=
  match d with
  | [] => [(k, v)]
  | (k', v') :: d' =>
      if key_eqb k' k then (k', v) :: d' else (k', v') :: store d' k v
  end.

Definition setitem (d : pydict) (k v : pyval) : result pydict :=
  if hashable k then Ok (store d k v) else Raise TypeError.

(** [v[k]] for a string literal [k]. *)
Definition getitem (v : pyval) (k : string) : result pyval :=
  match v with
  | PDict d =>
      match lookup d (PStr k) with
      | Some x => Ok x
      | None => Raise (KeyError k)
      end
  | _ => Raise TypeError
  end.

(** [v.get(k, default)] for a string literal [k]. *)
Definition get (v : pyval) (k : string) (dflt : pyval) : result pyval :=
  match v with
  | PDict d => Ok (default dflt (lookup d (PStr k)))
  | _ => Raise AttributeError
  end.

Definition chars (s : string) : list pyval :=
  (λ c, PStr (String c EmptyString)) <$> list_ascii_of_string s.

(** The items a [for] loop or [join] draws from [v]. *)
Definition iter (v : pyval) : result (list pyval) :=
  match v with
  | PList l => Ok l
  | PStr s => Ok (chars s)
  | PDict d => Ok (d.*1)
  | _ => Raise TypeError
  end.

Definition len (v : pyval) : result Z :=
  match v with
  | PList l => Ok (Z.of_nat (length l))
  | PStr s => Ok (Z.of_nat (String.length s))
  | PDict d => Ok (Z.of_nat (length d))
  | _ => Raise TypeError
  end.

(** [v == k] for a string literal [k]. *)
Definition eq_str (v : pyval) (k : string) : bool :=
  match v with
  | PStr s => String.eqb s k
  | _ => false
  end.

Definition lower_char (c : ascii) : ascii :=
  let n := nat_of_ascii c in
  if ((65 <=? n) && (n <=? 90))%nat then ascii_of_nat (n + 32) else c.

Fixpoint lower_str (s : string) : string :=
  match s with
  | EmptyString => EmptyString
  | String c s' => String (lower_char c) (lower_str s')
  end.

(** [v.lower()] *)
Definition lower (v : pyval) : result string :=
  match v with
  | PStr s => Ok (lower_str s)
  | _ => Raise AttributeError
  end.

(** [s.replace(old, new)] for one-character [old] and [new]. *)
Fixpoint replace (old new : ascii) (s : string) : string :=
  match s with
  | EmptyString => EmptyString
  | String c s' =>
      String (if Ascii.eqb c old then new else c) (replace old new s')
  end.

(** [sep.join(v)] *)
Fixpoint join_strs (sep : string) (l : list pyval) : result string :=
  match l with
  | [] => Ok ""
  | PStr s :: l' =>
      match l' with
      | [] => Ok s
      | _ => r ← join_strs sep l'; Ok (s +:+ sep +:+ r)
      end
  | _ => Raise TypeError
  end.

Definition join (sep : string) (v : pyval) : result string :=
  l ← iter v; join_strs sep l.

(** [sum(xs)] *)
Definition sum (xs : list Z) : Z := foldr Z.add 0 xs.

End Py.

(** ** The world: files, clocks, standard output, injected faults *)

Definition bytes := list Byte.byte.

(** The working directory holds files and one level of directories; a path
    is the name of an entry of the working directory, [dir / name] an entry
    of directory [dir]. Names are taken whole, not split at separators. *)
Inductive node :=
| File (data : bytes)
| Dir (entries : gmap string bytes).

Record state := State {
  fs : gmap string node;
  stdout : list string;
  (** the wall clock read by [datetime.now()] *)
  wall : Z;
  (** the event loop's clock, in seconds *)
  loop_time : Q;
  (** the fault plan: the next I/O primitive fails iff the head is [true] *)
  faults : list bool;
  (** [self.installed_modules] of the loader *)
  installed_modules : gmap string pyval
}.

Definition set_fs (f : gmap string node) (s : state) : state :=
  State f (stdout s) (wall s) (loop_time s) (faults s) (installed_modules s).
Definition add_line (line : string) (s : state) : state :=
  State (fs s) (stdout s ++ [line]) (wall s) (loop_time s) (faults s)
    (installed_modules s).
Definition set_loop_time (t : Q) (s : state) : state :=
  State (fs s) (stdout s) (wall s) t (faults s) (installed_modules s).
Definition set_faults (plan : list bool) (s : state) : state :=
  State (fs s) (stdout s) (wall s) (loop_time s) plan (installed_modules s).
Definition set_installed (m : gmap string pyval) (s : state) : state :=
  State (fs s) (stdout s) (wall s) (loop_time s) (faults s) m.

(** ** The state-and-error monad *)

Definition M (A : Type) : Type := state → result A * state.

#[global] Instance M_ret : MRet M := λ A a s, (Ok a, s).
#[global] Instance M_bind : MBind M := λ A B f m s,
  match m s with
  | (Ok a, s') => f a s'
  | (Raise e, s') => (Raise e, s')
  end.

Definition raise {A : Type} (e : exn) : M A := λ s, (Raise e, s).
Definition lift {A : Type} (r : result A) : M A := λ s, (r, s).
Definition gets {A : Type} (f : state → A) : M A := λ s, (Ok (f s), s).
Definition modify (f : state → state) : M unit := λ s, (Ok tt, f s).

(** [try: body  except Exception as e: handler(e)] *)
Definition try_except {A : Type} (body : M A) (handler : exn → M A) : M A :=
  λ s, match body s with
       | (Raise e, s') => handler e s'
       | r => r
       end.

(** [for x in xs: body(x)] *)
Fixpoint for_ {A : Type} (xs : list A) (body : A → M unit) : M unit :=
  match xs with
  | [] => mret tt
  | x :: xs' => body x;; for_ xs' body
  end.

Definition print (line : string) : M unit := modify (add_line line).

(** An I/O primitive: it fails with [OSError] when the fault plan says so,
    and runs otherwise. *)
Definition io {A : Type} (op : M A) : M A := λ s,
  match faults s with
  | [] => op s
  | false :: plan => op (set_faults plan s)
  | true :: plan => (Raise OSError, set_faults plan s)
  end.

(** ** File-system primitives *)

Module Fs.

(** [Path(p).exists()] *)
Definition exists_ (p : string) : M bool :=
  gets (λ s, bool_decide (is_Some (fs s !! p))).

(** [Path(p).mkdir(exist_ok=True)] *)
Definition mkdir_exist_ok (p : string) : M unit :=
  io (n ← gets (λ s, fs s !! p);
      match n with
      | None => modify (λ s, set_fs (<[p := Dir ∅]> (fs s)) s)
      | Some (Dir _) => mret tt
      | Some (File _) => raise (FileExistsError p)
      end).

(** The entries of directory [dir]. *)
Definition listing (dir : string) : M (gmap string bytes) :=
  n ← gets (λ s, fs s !! dir);
  match n with
  | Some (Dir es) => mret es
  | Some (File _) => raise (NotADirectoryError dir)
  | None => raise (FileNotFoundError dir)
  end.

(** [open(dir / name, "w")]: the file is created or truncated. *)
Definition open_w (dir name : string) : M unit :=
  io (es ← listing dir;
      modify (λ s, set_fs (<[dir := Dir (<[name := []]> es)]> (fs s)) s)).

(** Writing [data] to the file opened by [open_w]. *)
Definition write (dir name : string) (data : bytes) : M unit :=
  io (es ← listing dir;
      modify (λ s, set_fs (<[dir := Dir (<[name := data]> es)]> (fs s)) s)).

(** [open(dir / name, "r")]: the handle is the file's content. *)
Definition open_r (dir name : string) : M bytes :=
  io (es ← listing dir;
      match es !! name with
      | Some data => mret data
      | None => raise (FileNotFoundError (dir +:+ "/" +:+ name))
      end).

(** [open(p, "rb")] for an entry of the working directory. *)
Definition open_rb (p : string) : M bytes :=
  io (n ← gets (λ s, fs s !! p);
      match n with
      | Some (File data) => mret data
      | Some (Dir _) => raise (IsADirectoryError p)
      | None => raise (FileNotFoundError p)
      end).

(** [f.read()] up to the end of the file. *)
Definition read_all (handle : bytes) : M bytes := io (mret handle).

(** [f.read(n)]: the block read and the rest of the file. *)
Definition read (n : nat) (handle : bytes) : M (bytes * bytes) :=
  io (mret (take n handle, drop n handle)).

(** [dir.iterdir()]: the names, in the directory's own order. *)
Definition iterdir (dir : string) : M (list string) :=
  io (es ← listing dir; mret ((map_to_list es).*1)).

(** [shutil.rmtree(p)] *)
Definition rmtree (p : string) : M unit :=
  io (n ← gets (λ s, fs s !! p);
      match n with
      | Some (Dir _) => modify (λ s, set_fs (delete p (fs s)) s)
      | Some (File _) => raise (NotADirectoryError p)
      | None => raise (FileNotFoundError p)
      end).

(** Replacing the content of the working-directory entry [p]; a
    directory is in the way of a file. *)
Definition put_file (p : string) (data : bytes) : M unit :=
  n ← gets (λ s, fs s !! p);
  match n with
  | Some (Dir _) => raise (IsADirectoryError p)
  | _ => modify (λ s, set_fs (<[p := File data]> (fs s)) s)
  end.

End Fs.

(** ** The libraries the two classes call *)

Record Runtime := {
  (** [hashlib.sha256()], [update], [hexdigest] *)
  hasher : Type;
  sha256 : hasher;
  sha256_update : hasher → bytes → hasher;
  sha256_hexdigest : hasher → string;
  (** [json.dump(v, f, indent=2)] and [json.load(f)] *)
  json_dumps : pyval → bytes;
  json_loads : bytes → option pyval;
  (** [pickle.dump] and [pickle.load] *)
  pickle_dumps : pyval → bytes;
  pickle_loads : bytes → option pyval;
  (** the bytes on disk of a gzipped tar archive open for writing that
      holds these members, and of the archive once closed *)
  targz_partial : list (string * bytes) → bytes;
  targz_final : list (string * bytes) → bytes;
  (** the members [tarfile.open(p, "r:gz")] finds *)
  targz_members : bytes → option (list (string * bytes));
  (** [repr(v)], [str(e)] of an exception, [round(a / b, 2)],
      [datetime.isoformat()] *)
  repr : pyval → string;
  exn_str : exn → string;
  round2_div : Z → Z → Q;
  isoformat : Z → string
}.

(** ** What both classes share *)

Section Shared.
Context (rt : Runtime).

(** [str(v)], as an f-string formats [v]. *)
Definition str (v : pyval) : string :=
  match v with
  | PStr s => s
  | _ => repr rt v
  end.

(** [datetime.now().isoformat()] *)
Definition datetime_now : M string := gets (λ s, isoformat rt (wall s)).

(** The loop [for byte_block in iter(lambda: f.read(4096), b"")]; [fuel]
    bounds the number of reads. *)
Fixpoint hash_blocks (fuel : nat) (f : bytes) (h : hasher rt)
  : M (hasher rt) :=
  match fuel with
  | O => mret h
  | S fuel' =>
      '(byte_block, f') ← Fs.read 4096 f;
      match byte_block with
      | [] => mret h
      | _ => hash_blocks fuel' f' (sha256_update rt h byte_block)
      end
  end.

(** [_calculate_hash], the same method in both classes. *)
Definition _calculate_hash (file_path : string) : M string :=
  f ← Fs.open_rb file_path;
  sha256_hash ← hash_blocks (S (length f)) f (sha256 rt);
  mret (sha256_hexdigest rt sha256_hash).

(** [h[:16]] *)
Definition prefix16 (h : string) : string := substring 0 16 h.

End Shared.

(** ** KnowledgePackager *)

Module Packager.

(** The dict built by [_create_embeddings_data], one field per key. *)
Record embeddings := Embeddings {
  chunks : list pyval;
  metadata : list pyval;
  entity_map : pydict
}.

Definition embeddings_dict (ed : embeddings) : pyval :=
  PDict [(PStr "chunks", PList (chunks ed));
         (PStr "metadata", PList (metadata ed));
         (PStr "entity_map", PDict (entity_map ed))].

(** The body of the loop of [_extract_skills]. *)
Definition extract_skill (skills : gset string) (entity : pyval)
  : result (gset string) :=
  entity_type ← Py.get entity "entityType" (PStr "");
  name ← Py.get entity "name" (PStr "");
  if Py.eq_str entity_type "Active_Project" then
    n ← Py.lower name;
    Ok ({["project_" +:+ Py.replace " " "_" n]} ∪ skills)
  else if Py.eq_str entity_type "Tool_Reference" then
    n ← Py.lower name;
    Ok ({["tool_" +:+ n]} ∪ skills)
  else if Py.eq_str entity_type "System_Protocol" then
    n ← Py.lower name;
    Ok ({["protocol_" +:+ Py.replace " " "_" n]} ∪ skills)
  else Ok skills.

(** [list(skills)] lists the set in an order of its own. *)
Definition _extract_skills (entities : list pyval) : result (list string) :=
  skills ← for_each extract_skill entities ∅;
  Ok (elements skills).

(** The body of the inner loop of [_create_embeddings_data]; the
    accumulator is the dict under construction and [chunk_id]. *)
Definition add_chunk (entity_name entity_type : pyval)
    (acc : embeddings * Z) (obs : pyval) : result (embeddings * Z) :=
  let '(ed, chunk_id) := acc in
  let chunks' := chunks ed ++
    [PDict [(PStr "id", PInt chunk_id);
            (PStr "text", obs);
            (PStr "entity", entity_name);
            (PStr "type", entity_type)]] in
  char_count ← Py.len obs;
  let metadata' := metadata ed ++
    [PDict [(PStr "chunk_id", PInt chunk_id);
            (PStr "entity_name", entity_name);
            (PStr "entity_type", entity_type);
            (PStr "char_count", PInt char_count)]] in
  Ok (Embeddings chunks' metadata' (entity_map ed), chunk_id + 1).

(** The body of the outer loop. *)
Definition add_entity (acc : embeddings * Z) (entity : pyval)
  : result (embeddings * Z) :=
  entity_name ← Py.get entity "name" (PStr "unknown");
  entity_type ← Py.get entity "entityType" (PStr "unknown");
  observations ← Py.get entity "observations" (PList []);
  items ← Py.iter observations;
  '(ed, chunk_id) ← for_each (add_chunk entity_name entity_type) items acc;
  entity_map' ← Py.setitem (entity_map ed) entity_name entity_type;
  Ok (Embeddings (chunks ed) (metadata ed) entity_map', chunk_id).

Definition _create_embeddings_data (entities : list pyval)
  : result embeddings :=
  '(ed, _) ← for_each add_entity entities (Embeddings [] [] [], 0);
  Ok ed.

(** [sum(len(e.get("observations", [])) for e in entities)] *)
Fixpoint observation_counts (entities : list pyval) : result (list Z) :=
  match entities with
  | [] => Ok []
  | e :: es =>
      observations ← Py.get e "observations" (PList []);
      n ← Py.len observations;
      ns ← observation_counts es;
      Ok (n :: ns)
  end.

Definition total_observations (entities : list pyval) : result Z :=
  ns ← observation_counts entities; Ok (Py.sum ns).

(** [[e.get("name", "unknown") for e in entities]] *)
Fixpoint memory_entities (entities : list pyval) : result (list pyval) :=
  match entities with
  | [] => Ok []
  | e :: es =>
      n ← Py.get e "name" (PStr "unknown");
      ns ← memory_entities es;
      Ok (n :: ns)
  end.

Section Methods.
Context (rt : Runtime).

Definition module_version : string := "1.0.0".

Definition _estimate_size (entities : list pyval) : Q :=
  let total_chars :=
    Py.sum ((λ e, Z.of_nat (String.length (str rt e))) <$> entities) in
  round2_div rt total_chars (1024 * 1024 * 10).

(** [with open(dir / name, "w") as f: json.dump(v, f, indent=2)] *)
Definition dump_json (dir name : string) (v : pyval) : M unit :=
  Fs.open_w dir name;;
  Fs.write dir name (json_dumps rt v).

(** [tarfile.open(p, "w:gz")]: the archive file is created at once. *)
Definition tar_open_w (p : string) : M unit :=
  io (Fs.put_file p (targz_partial rt [])).

(** [tar.add(dir / name, arcname=name)] on the archive at [p] that
    holds [members]. *)
Definition tar_add (p dir : string) (members : list (string * bytes))
    (name : string) : M (list (string * bytes)) :=
  f ← Fs.open_r dir name;
  data ← Fs.read_all f;
  let members' := members ++ [(name, data)] in
  io (Fs.put_file p (targz_partial rt members'));;
  mret members'.

Fixpoint tar_add_all (p dir : string) (members : list (string * bytes))
    (names : list string) : M (list (string * bytes)) :=
  match names with
  | [] => mret members
  | name :: names' =>
      members' ← tar_add p dir members name;
      tar_add_all p dir members' names'
  end.

(** Leaving the [with] block normally closes the archive. *)
Definition tar_close (p : string) (members : list (string * bytes))
  : M unit :=
  io (Fs.put_file p (targz_final rt members)).

Definition manifest : pyval :=
  PDict [
    (PStr "install_steps", PList [
       PDict [(PStr "action", PStr "load_embeddings");
              (PStr "file", PStr "embeddings.pkl")];
       PDict [(PStr "action", PStr "register_metadata");
              (PStr "file", PStr "metadata.json")];
       PDict [(PStr "action", PStr "verify_integrity");
              (PStr "check", PStr "hash")]]);
    (PStr "requirements", PDict [
       (PStr "vector_db", PStr "supabase_or_qdrant");
       (PStr "min_memory_mb", PInt 100)])].

Definition create_from_memory (entities : list pyval)
    (module_name description : string) : M string :=
  print ("🎬 Creating knowledge module: " +:+ module_name);;
  let module_dir := "temp_" +:+ module_name in
  Fs.mkdir_exist_ok module_dir;;
  (* 1. Create metadata *)
  created ← datetime_now rt;
  skills_provided ← lift (_extract_skills entities);
  let metadata := PDict [
    (PStr "name", PStr module_name);
    (PStr "description", PStr description);
    (PStr "version", PStr module_version);
    (PStr "created", PStr created);
    (PStr "type", PStr "memory_export");
    (PStr "entity_count", PInt (Z.of_nat (length entities)));
    (PStr "skills_provided", PList (PStr <$> skills_provided));
    (PStr "prerequisites", PList []);
    (PStr "size_estimate_mb", PFloat (_estimate_size entities))] in
  dump_json module_dir "metadata.json" metadata;;
  (* 2. Process entities into embeddings format *)
  print "🧠 Processing memory entities...";;
  embeddings_data ← lift (_create_embeddings_data entities);
  Fs.open_w module_dir "embeddings.pkl";;
  Fs.write module_dir "embeddings.pkl"
    (pickle_dumps rt (embeddings_dict embeddings_data));;
  (* 3. Create sources manifest *)
  names ← lift (memory_entities entities);
  export_timestamp ← datetime_now rt;
  total ← lift (total_observations entities);
  let sources := PDict [
    (PStr "memory_entities", PList names);
    (PStr "export_timestamp", PStr export_timestamp);
    (PStr "total_observations", PInt total)] in
  dump_json module_dir "sources.json" sources;;
  (* 4. Create installation manifest *)
  dump_json module_dir "manifest.json" manifest;;
  (* 5. Create the .mkm archive *)
  print "📦 Packaging module...";;
  let mkm_path := module_name +:+ ".mkm" in
  tar_open_w mkm_path;;
  files ← Fs.iterdir module_dir;
  members ← tar_add_all mkm_path module_dir [] files;
  tar_close mkm_path members;;
  (* 6. Calculate hash *)
  module_hash ← _calculate_hash rt mkm_path;
  print ("✅ Module created: " +:+ mkm_path +:+ " (hash: "
         +:+ prefix16 module_hash +:+ "...)");;
  (* Cleanup *)
  Fs.rmtree module_dir;;
  mret mkm_path.

End Methods.

End Packager.

(** ** MatrixKnowledgeLoader *)

Module Loader.

Section Methods.
Context (rt : Runtime).

(** [if not source_url]: [None] and the empty string are falsy. *)
Definition truthy (source_url : option string) : bool :=
  match source_url with
  | None | Some "" => false
  | Some _ => true
  end.

(** [await asyncio.sleep(1)] *)
Definition sleep1 : M unit :=
  modify (λ s, set_loop_time
             (QArith_base.Qplus (loop_time s) (QArith_base.inject_Z 1)) s).

Definition _download_from_url (url skill_name : string) : M string :=
  print ("📡 Downloading from " +:+ url +:+ "...");;
  sleep1;;
  mret (skill_name +:+ ".mkm").

Definition _verify_module (module_path : string) : M bool :=
  actual_hash ← _calculate_hash rt module_path;
  print ("📝 Module hash: " +:+ prefix16 actual_hash +:+ "...");;
  mret true.

(** [extract_dir / v]: only a string joins a path. *)
Definition path_name (v : pyval) : result string :=
  match v with
  | PStr s => Ok s
  | _ => Raise TypeError
  end.

Definition unpickle (data : bytes) : result pyval :=
  match pickle_loads rt data with
  | Some v => Ok v
  | None => Raise UnpicklingError
  end.

Definition json_load (data : bytes) : result pyval :=
  match json_loads rt data with
  | Some v => Ok v
  | None => Raise JSONDecodeError
  end.

(** [if self.vector_db: pass] has no effect and is left out. *)
Definition _execute_install_step (step : pyval) (extract_dir : string)
  : M unit :=
  action ← lift (Py.getitem step "action");
  if Py.eq_str action "load_embeddings" then
    print "🧠 Loading knowledge embeddings...";;
    file ← lift (Py.getitem step "file");
    name ← lift (path_name file);
    f ← Fs.open_r extract_dir name;
    data ← Fs.read_all f;
    embeddings_data ← lift (unpickle data);
    chunks ← lift (Py.getitem embeddings_data "chunks");
    n ← lift (Py.len chunks);
    print ("  - Loaded " +:+ pretty n +:+ " knowledge chunks")
  else if Py.eq_str action "register_metadata" then
    print "📋 Registering module metadata..."
  else if Py.eq_str action "verify_integrity" then
    print "✓ Integrity verified"
  else mret tt.

(** [with tarfile.open(p, "r:gz") as tar]: the members found. *)
Definition tar_open_r (p : string) : M (list (string * bytes)) :=
  data ← Fs.open_rb p;
  match targz_members rt data with
  | Some members => mret members
  | None => raise ReadError
  end.

(** [tar.extractall(dir)]: a member replaces a file of its name, a
    later member an earlier one. *)
Definition extractall (dir : string) (members : list (string * bytes))
  : M unit :=
  io (es ← Fs.listing dir;
      let es' := list_to_map (reverse members) ∪ es in
      modify (λ s, set_fs (<[dir := Dir es']> (fs s)) s)).

(** [with open(dir / name, "r") as f: json.load(f)] *)
Definition load_json (dir name : string) : M pyval :=
  f ← Fs.open_r dir name;
  data ← Fs.read_all f;
  lift (json_load data).

(** The [try] block of [_install_module], first half: extract the
    module, read the manifest and the metadata, print the header. *)
Definition read_archive (module_path extract_dir : string) : M pyval :=
  members ← tar_open_r module_path;
  extractall extract_dir members;;
  manifest ← load_json extract_dir "manifest.json";
  metadata ← load_json extract_dir "metadata.json";
  name ← lift (Py.getitem metadata "name");
  print ("📦 Installing module: " +:+ str rt name);;
  description ← lift (Py.getitem metadata "description");
  print ("📝 Description: " +:+ str rt description);;
  skills ← lift (Py.getitem metadata "skills_provided");
  joined ← lift (Py.join ", " skills);
  print ("🎯 Skills provided: " +:+ joined);;
  mret manifest.

(** Second half: execute the installation steps, clean up, return. *)
Definition run_install_steps (manifest : pyval) (extract_dir : string)
  : M bool :=
  install_steps ← lift (Py.getitem manifest "install_steps");
  steps ← lift (Py.iter install_steps);
  for_ steps (λ step, _execute_install_step step extract_dir);;
  Fs.rmtree extract_dir;;
  mret true.

Definition install_body (module_path extract_dir : string) : M bool :=
  manifest ← read_archive module_path extract_dir;
  run_install_steps manifest extract_dir.

Definition _install_module (module_path skill_name : string) : M bool :=
  let extract_dir := "temp_" +:+ skill_name in
  Fs.mkdir_exist_ok extract_dir;;
  try_except (install_body module_path extract_dir)
    (λ e, print ("❌ Installation error: " +:+ exn_str rt e);;
          mret false).

(** Where the archive is looked for; [None] is the early
    [return False] of the local branch. *)
Definition locate (skill_name : string) (source_url : option string)
  : M (option string) :=
  if negb (truthy source_url) then
    let module_path := skill_name +:+ ".mkm" in
    found ← Fs.exists_ module_path;
    if negb found then
      print ("❌ Knowledge module '" +:+ skill_name
             +:+ "' not found locally");;
      print "💡 In production, this would search the blockchain registry";;
      mret None
    else mret (Some module_path)
  else
    module_path ← _download_from_url (default "" source_url) skill_name;
    mret (Some module_path).

Definition download_skill (skill_name : string)
    (source_url : option string) : M bool :=
  print ("🔍 Searching for '" +:+ skill_name
         +:+ "' in knowledge matrix...");;
  located ← locate skill_name source_url;
  match located with
  | None => mret false
  | Some module_path =>
      print "🔐 Verifying module integrity...";;
      verified ← _verify_module module_path;
      if negb verified then
        print "❌ Module verification failed!";;
        mret false
      else
        print "📥 Downloading knowledge...";;
        install_success ← _install_module module_path skill_name;
        if (install_success : bool) then
          print ("✅ I know " +:+ skill_name +:+ "!");;
          installed_at ← gets loop_time;
          modify (λ s, set_installed
            (<[skill_name := PDict [(PStr "path", PStr module_path);
                                    (PStr "installed_at", PFloat installed_at)]]>
               (installed_modules s)) s);;
          mret true
        else
          print ("❌ Failed to install " +:+ skill_name);;
          mret false
  end.

Definition list_installed_modules : M (gmap string pyval) :=
  gets installed_modules.

End Methods.

End Loader.

(** ** The data model the claims speak of *)

Module Spec.

Definition is_str (v : pyval) : bool :=
  match v with
  | PStr _ => true
  | _ => false
  end.

Definition absent_or (ok : pyval → bool) (o : option pyval) : bool :=
  match o with
  | None => true
  | Some v => ok v
  end.

Definition is_str_list (v : pyval) : bool :=
  match v with
  | PList l => forallb is_str l
  | _ => false
  end.

(** An Entity: a dict whose [name] and [entityType] are strings and whose
    [observations] are a list of strings, any of the three keys possibly
    missing. *)
Definition is_entity (e : pyval) : bool :=
  match e with
  | PDict d =>
      absent_or is_str (Py.lookup d (PStr "name"))
      && absent_or is_str (Py.lookup d (PStr "entityType"))
      && absent_or is_str_list (Py.lookup d (PStr "observations"))
  | _ => false
  end.

(** The value under key [k], or the placeholder when the key is missing. *)
Definition field (e : pyval) (k : string) (placeholder : pyval) : pyval :=
  match e with
  | PDict d => default placeholder (Py.lookup d (PStr k))
  | _ => placeholder
  end.

Definition name_or_unknown (e : pyval) : pyval :=
  field e "name" (PStr "unknown").
Definition type_or_unknown (e : pyval) : pyval :=
  field e "entityType" (PStr "unknown").

(** The observations of an entity, none when the key is missing. *)
Definition observations (e : pyval) : list pyval :=
  match field e "observations" (PList []) with
  | PList l => l
  | _ => []
  end.

(** Entity-then-observation traversal: one triple of entity name, entity
    type and observation per observation. *)
Definition traversal (es : list pyval) : list (pyval * pyval * pyval) :=
  e ← es;
  (λ obs, (name_or_unknown e, type_or_unknown e, obs)) <$> observations e.

Definition text_length (obs : pyval) : Z :=
  match obs with
  | PStr s => Z.of_nat (String.length s)
  | _ => 0
  end.

(** The KnowledgeChunk and the ChunkMetadata with id [i]. *)
Definition chunk (i : nat) (x : pyval * pyval * pyval) : pyval :=
  let '(name, type, obs) := x in
  PDict [(PStr "id", PInt (Z.of_nat i)); (PStr "text", obs);
         (PStr "entity", name); (PStr "type", type)].

Definition chunk_metadata (i : nat) (x : pyval * pyval * pyval) : pyval :=
  let '(name, type, obs) := x in
  PDict [(PStr "chunk_id", PInt (Z.of_nat i)); (PStr "entity_name", name);
         (PStr "entity_type", type);
         (PStr "char_count", PInt (text_length obs))].

(** [entity_map]: one write per entity, the last write to a name wins. *)
Definition entity_map (es : list pyval) : pydict :=
  foldl (λ m e, Py.store m (name_or_unknown e) (type_or_unknown e)) [] es.

(** Slugify: lowercase, spaces replaced with underscores. *)
Definition slugify (name : string) : string :=
  Py.replace " " "_" (Py.lower_str name).

(** The skill tag an entity of this type and name contributes. *)
Definition skill_tag (entity_type name : string) : option string :=
  if String.eqb entity_type "Active_Project" then
    Some ("project_" +:+ slugify name)
  else if String.eqb entity_type "Tool_Reference" then
    Some ("tool_" +:+ Py.lower_str name)
  else if String.eqb entity_type "System_Protocol" then
    Some ("protocol_" +:+ slugify name)
  else None.

(** The blocks of [n] bytes a file is read in, and the digest of a file's
    content: every block fed to the hasher in turn. *)
Fixpoint blocks (fuel n : nat) (f : bytes) : list bytes :=
  match fuel with
  | O => []
  | S fuel' =>
      match take n f with
      | [] => []
      | block => block :: blocks fuel' n (drop n f)
      end
  end.

Definition digest (rt : Runtime) (data : bytes) : string :=
  sha256_hexdigest rt
    (foldl (sha256_update rt) (sha256 rt) (blocks (S (length data)) 4096 data)).

(** No I/O failure is injected from this state on. *)
Definition quiet (s : state) : Prop := Forall (λ b, b = false) (faults s).

(** The entry [p] of the working directory is a directory. *)
Definition is_dir (p : string) (s : state) : Prop :=
  ∃ es, fs s !! p = Some (Dir es).

(** The record [download_skill] files under the skill's name. *)
Definition installed_record (path : string) (t : Q) : pyval :=
  PDict [(PStr "path", PStr path); (PStr "installed_at", PFloat t)].

Definition text (v : pyval) : string :=
  match v with
  | PStr s => s
  | _ => ""
  end.

(** The tag of an entity, a missing name or type read as empty. *)
Definition entity_skill (e : pyval) : option string :=
  skill_tag (text (field e "entityType" (PStr "")))
            (text (field e "name" (PStr ""))).

End Spec.

(** ** A small runtime and a few worlds to run the methods in

    The codecs are given by tables over a handful of byte strings; the
    hasher keeps the bytes it was fed. *)

Module Demo.

Definition b (text : string) : bytes := list_byte_of_string text.
Definition tag (data : bytes) : string := string_of_list_byte data.

Definition sample : pyval :=
  PDict [(PStr "name", PStr "Sample");
         (PStr "entityType", PStr "Tool_Reference");
         (PStr "observations", PList [PStr "x"; PStr "y"])].

(** An entity with no key at all. *)
Definition nameless : pyval := PDict [].

Definition metadata : pyval :=
  PDict [(PStr "name", PStr "sample-module");
         (PStr "description", PStr "A sample");
         (PStr "skills_provided", PList [PStr "tool_sample"])].

Definition step_load (file : string) : pyval :=
  PDict [(PStr "action", PStr "load_embeddings"); (PStr "file", PStr file)].
Definition step_verify : pyval :=
  PDict [(PStr "action", PStr "verify_integrity"); (PStr "check", PStr "hash")].
Definition step_unknown : pyval :=
  PDict [(PStr "action", PStr "frobnicate")].

Definition manifest_of (steps : list pyval) : pyval :=
  PDict [(PStr "install_steps", PList steps)].

(** Steps A, B, C where B loads a file the archive does not hold. *)
Definition manifest_abc : pyval :=
  manifest_of [step_load "embeddings.pkl"; step_load "missing.pkl"; step_verify].

Definition manifest_unknown : pyval :=
  manifest_of [step_load "embeddings.pkl"; step_unknown; step_verify].

Definition embeddings : pyval :=
  PDict [(PStr "chunks", PList [PStr "x"; PStr "y"]);
         (PStr "metadata", PList []);
         (PStr "entity_map", PDict [])].

Definition members_with (manifest : string) : list (string * bytes) :=
  [("metadata.json", b "META"); ("embeddings.pkl", b "EMB");
   ("manifest.json", b manifest)].

Definition names_of (members : list (string * bytes)) : bytes :=
  concat ((λ m, b (m.1)) <$> members).

Definition rt : Runtime := {|
  hasher := bytes;
  sha256 := [];
  sha256_update := λ h block, h ++ block;
  sha256_hexdigest := λ h, "digest-of-" +:+ pretty (length h) +:+ "-bytes";
  json_dumps := λ _, b "{}";
  json_loads := λ data,
    match tag data with
    | "META" => Some metadata
    | "MANIFEST" => Some Packager.manifest
    | "MANIFEST-ABC" => Some manifest_abc
    | "MANIFEST-UNKNOWN" => Some manifest_unknown
    | _ => None
    end;
  pickle_dumps := λ _, b "EMB";
  pickle_loads := λ data,
    match tag data with
    | "EMB" => Some embeddings
    | _ => None
    end;
  targz_partial := λ members, b "open:" ++ names_of members;
  targz_final := λ members, b "done:" ++ names_of members;
  targz_members := λ data,
    match tag data with
    | "ARCHIVE" => Some (members_with "MANIFEST")
    | "ARCHIVE-ABC" => Some (members_with "MANIFEST-ABC")
    | "ARCHIVE-UNKNOWN" => Some (members_with "MANIFEST-UNKNOWN")
    | "ARCHIVE-NO-MANIFEST" => Some [("metadata.json", b "META")]
    | _ => None
    end;
  repr := λ _, "<value>";
  exn_str := λ e,
    match e with
    | KeyError k => "'" +:+ k +:+ "'"
    | FileNotFoundError p => "No such file or directory: '" +:+ p +:+ "'"
    | _ => "error"
    end;
  round2_div := λ a c, QArith_base.Qmake (a * 100 / c) 100;
  isoformat := λ t, pretty t
|}.

(** A world with these entries in the working directory, this fault
    plan, nothing printed and nothing installed. *)
Definition world (entries : list (string * node)) (plan : list bool)
  : state :=
  State (list_to_map entries) [] 0 (QArith_base.inject_Z 0) plan ∅.

(** A world holding the archive [m.mkm] with this content. *)
Definition with_archive (content : string) : state :=
  world [("m.mkm", File (b content))] [].

Definition execute (step : pyval) : M unit :=
  Loader._execute_install_step rt step "temp_m".

(** The states an install of the A, B, C archive goes through: the
    scratch directory made, the archive read, step A run, step B failed. *)
Definition abc_made : state :=
  (Fs.mkdir_exist_ok "temp_m" (with_archive "ARCHIVE-ABC")).2.
Definition abc_read : state :=
  (Loader.read_archive rt "m.mkm" "temp_m" abc_made).2.
Definition abc_after_a : state :=
  (for_ [step_load "embeddings.pkl"] execute abc_read).2.
Definition abc_after_b : state :=
  (execute (step_load "missing.pkl") abc_after_a).2.

(** The same for the archive with an unknown action between A and C. *)
Definition unknown_read : state :=
  (Loader.read_archive rt "m.mkm" "temp_m"
     (Fs.mkdir_exist_ok "temp_m" (with_archive "ARCHIVE-UNKNOWN")).2).2.
Definition unknown_after_a : state :=
  (for_ [step_load "embeddings.pkl"] execute unknown_read).2.
Definition unknown_after_c : state :=
  (for_ [step_verify] execute unknown_after_a).2.
Definition unknown_cleaned : state :=
  (Fs.rmtree "temp_m" unknown_after_c).2.

(** Thirteen I/O primitives succeed and the fourteenth fails: the
    archive has been opened for writing and the write of its first member
    fails. *)
Definition failing_while_adding : state :=
  world [] (replicate 13 false ++ [true]).

End Demo.


(** ** A Hoare logic for [M] *)

(** From a state satisfying [P], [m] returns [a] in a state satisfying
    [Q a], or raises [e] in a state satisfying [E e]. *)
Definition hoare {A : Type} (P : state → Prop) (m : M A)
    (Q : A → state → Prop) (E : exn → state → Prop) : Prop :=
  ∀ s, P s →
    match m s with
    | (Ok a, s') => Q a s'
    | (Raise e, s') => E e s'
    end.

(** [m] keeps the invariant [I], whether it returns or raises. *)
Definition preserves {A : Type} (I : state → Prop) (m : M A) : Prop :=
  hoare I m (λ _, I) (λ _, I).

(** Invariants that do not look at [stdout], the fault plan or the loop
    clock. *)
Record frame (I : state → Prop) : Prop := Frame {
  frame_out : ∀ s l, I s → I (add_line l s);
  frame_faults : ∀ s plan, I s → I (set_faults plan s);
  frame_clock : ∀ s t, I s → I (set_loop_time t s)
}.

(** Invariants that survive any change to the content of directory [p]. *)
Definition keeps (p : string) (I : state → Prop) : Prop :=
  ∀ s es es', fs s !! p = Some (Dir es) → I s →
    I (set_fs (<[p := Dir es']> (fs s)) s).

(** Invariants that do not look at the entry [p] of the working directory. *)
Definition ignores (p : string) (I : state → Prop) : Prop :=
  ∀ s f, (∀ q, q ≠ p → f !! q = fs s !! q) → I s → I (set_fs f s).

(** The registry is [r]. *)
Definition registry_is (r : gmap string pyval) (s : state) : Prop :=
  installed_modules s = r.

(** The destination [dest] holds [v]; an archive open for writing; a closed
    archive. *)
Definition dest_is (dest : string) (v : option node) (s : state) : Prop :=
  fs s !! dest = v.
Definition dest_open (rt : Runtime) (dest : string) (s : state) : Prop :=
  ∃ members, fs s !! dest = Some (File (targz_partial rt members)).
Definition dest_closed (rt : Runtime) (dest : string) (s : state) : Prop :=
  ∃ members, fs s !! dest = Some (File (targz_final rt members)).

(** ** Predicates on inputs, read off the two classes *)

Module Props.

(** One of the three entity types [_extract_skills] knows. *)
Definition recognized (entity_type : pyval) : bool :=
  Py.eq_str entity_type "Active_Project"
  || Py.eq_str entity_type "Tool_Reference"
  || Py.eq_str entity_type "System_Protocol".

(** An entity [_extract_skills] gets through: a dict whose name is a
    string whenever its type is one of the three. *)
Definition skill_ok (e : pyval) : bool :=
  match e with
  | PDict d =>
      negb (recognized (default (PStr "") (Py.lookup d (PStr "entityType"))))
      || Spec.is_str (default (PStr "") (Py.lookup d (PStr "name")))
  | _ => false
  end.

(** [tag] holds no ASCII capital, no space. *)
Definition no_capital (tag : string) : Prop := Py.lower_str tag = tag.
Definition no_space (tag : string) : Prop := Py.replace " " "_" tag = tag.

(** The chunk [c] has id [i] and the metadata record [m] is the one
    derived from it: same id, entity name and type, and the length of
    the chunk's text. *)
Definition mirrors (i : nat) (c m : pyval) : Prop :=
  ∃ text name type n,
    c = PDict [(PStr "id", PInt (Z.of_nat i)); (PStr "text", text);
               (PStr "entity", name); (PStr "type", type)]
    ∧ m = PDict [(PStr "chunk_id", PInt (Z.of_nat i));
                 (PStr "entity_name", name); (PStr "entity_type", type);
                 (PStr "char_count", PInt n)]
    ∧ Py.len text = Ok n.

(** What the loops of [_create_embeddings_data] keep: the counter is the
    number of chunks, and every chunk has its metadata record at the same
    index. *)
Definition encoder_inv (acc : Packager.embeddings * Z) : Prop :=
  acc.2 = Z.of_nat (length (Packager.chunks acc.1))
  ∧ length (Packager.metadata acc.1) = length (Packager.chunks acc.1)
  ∧ ∀ i c, Packager.chunks acc.1 !! i = Some c →
      ∃ m, Packager.metadata acc.1 !! i = Some m ∧ mirrors i c m.

(** All keys of the dict are strings. *)
Definition str_keys (d : pydict) : Prop := Forall (λ k, Spec.is_str k = true) (d.*1).


(** From [s] to [s'] lines were printed and nothing else happened to the
    file system, the registry or the wall clock. *)
Definition only_printed (s s' : state) : Prop :=
  fs s' = fs s
  ∧ installed_modules s' = installed_modules s
  ∧ wall s' = wall s
  ∧ stdout s `prefix_of` stdout s'.

(** The entries of the working directory other than [p] are those of
    [f]. *)
Definition same_but (p : string) (f : gmap string node) (s : state) : Prop :=
  ∀ q, q ≠ p → fs s !! q = f !! q.

(** The entries other than [p] and [p'] are those of [f]. *)
Definition same_but2 (p p' : string) (f : gmap string node) (s : state)
  : Prop :=
  ∀ q, q ≠ p → q ≠ p' → fs s !! q = f !! q.


(** ** Runs without injected faults

    [core s] is the part of the state a run computes with when no fault
    is injected and what it prints is not looked at. *)
Definition core (s : state) : state :=
  State (fs s) [] (wall s) (loop_time s) [] (installed_modules s).

Definition runs_at (x s : state) : Prop := Spec.quiet s ∧ core s = x.

(** From any fault-free state with core [x], [m] returns [v] in a
    fault-free state with core [x']. *)
Definition yields {A : Type} (m : M A) (x : state) (v : A) (x' : state)
  : Prop :=
  hoare (runs_at x) m (λ a s, a = v ∧ runs_at x' s) (λ _ _, False).

(** The entries [mkdir(exist_ok=True)] leaves in a directory: none in a
    new one, those it had in an old one; a regular file is in the way. *)
Definition dir_content (o : option node) : option (gmap string bytes) :=
  match o with
  | None => Some ∅
  | Some (Dir es) => Some es
  | Some (File _) => None
  end.

(** The dicts [create_from_memory] dumps to [metadata.json] and
    [sources.json]. *)
Definition metadata_record (rt : Runtime) (entities : list pyval)
    (module_name description created : string) (skills : list string)
  : pyval :=
  PDict [
    (PStr "name", PStr module_name);
    (PStr "description", PStr description);
    (PStr "version", PStr Packager.module_version);
    (PStr "created", PStr created);
    (PStr "type", PStr "memory_export");
    (PStr "entity_count", PInt (Z.of_nat (length entities)));
    (PStr "skills_provided", PList (PStr <$> skills));
    (PStr "prerequisites", PList []);
    (PStr "size_estimate_mb", PFloat (Packager._estimate_size rt entities))].

Definition sources_record (entities : list pyval) (stamp : string) : pyval :=
  PDict [
    (PStr "memory_entities", PList (Spec.name_or_unknown <$> entities));
    (PStr "export_timestamp", PStr stamp);
    (PStr "total_observations",
     PInt (Z.of_nat (length (Spec.traversal entities))))].

(** The scratch directory when the archive is made: the four files
    written over what the directory held. *)
Definition module_files (rt : Runtime) (metadata : pyval)
    (ed : Packager.embeddings) (sources : pyval)
    (stale : gmap string bytes) : gmap string bytes :=
  <["manifest.json" := json_dumps rt Packager.manifest]>
    (<["sources.json" := json_dumps rt sources]>
       (<["embeddings.pkl" := pickle_dumps rt (Packager.embeddings_dict ed)]>
          (<["metadata.json" := json_dumps rt metadata]> stale))).

(** Values JSON gives back as they were: every dict key is a string. *)
Fixpoint jsonable (v : pyval) : bool :=
  match v with
  | PList l => forallb jsonable l
  | PDict d =>
      forallb (λ '(k, x), Spec.is_str k && jsonable x) d
  | _ => true
  end.

(** Codecs that read back what they wrote. *)
Record codec_laws (rt : Runtime) : Prop := CodecLaws {
  json_round_trip : ∀ v,
    jsonable v = true → json_loads rt (json_dumps rt v) = Some v;
  pickle_round_trip : ∀ v, pickle_loads rt (pickle_dumps rt v) = Some v;
  targz_round_trip : ∀ members,
    NoDup members.*1 →
    targz_members rt (targz_final rt members) = Some members
}.

End Props.

(** ** A runtime whose codecs read back what they wrote

    Values are written as the bits of their code in a countable
    enumeration, one bit per byte. *)

Module Codec.

Fixpoint bits (p : positive) : bytes :=
  match p with
  | xH => []
  | xO p' => Byte.x00 :: bits p'
  | xI p' => Byte.x01 :: bits p'
  end.

Fixpoint unbits (l : bytes) : positive :=
  match l with
  | [] => xH
  | Byte.x00 :: l' => xO (unbits l')
  | _ :: l' => xI (unbits l')
  end.

Definition atom : Type := bool + Z + Z * positive + string.

Fixpoint to_tree (v : pyval) : gen_tree atom :=
  match v with
  | PNone => GenNode 0 []
  | PBool b => GenLeaf (inl (inl (inl b)))
  | PInt z => GenLeaf (inl (inl (inr z)))
  | PFloat q => GenLeaf (inl (inr (QArith_base.Qnum q, QArith_base.Qden q)))
  | PStr s => GenLeaf (inr s)
  | PList l => GenNode 1 (map to_tree l)
  | PDict d =>
      GenNode 2 (map (λ '(k, x), GenNode 3 [to_tree k; to_tree x]) d)
  end.

Fixpoint of_tree (t : gen_tree atom) : option pyval :=
  match t with
  | GenLeaf (inl (inl (inl b))) => Some (PBool b)
  | GenLeaf (inl (inl (inr z))) => Some (PInt z)
  | GenLeaf (inl (inr (n, d))) => Some (PFloat (QArith_base.Qmake n d))
  | GenLeaf (inr s) => Some (PStr s)
  | GenNode 0 _ => Some PNone
  | GenNode 1 ts => PList <$> mapM of_tree ts
  | GenNode 2 ts =>
      PDict <$> mapM (λ t',
                  match t' with
                  | GenNode _ [a; b] =>
                      k ← of_tree a; x ← of_tree b; Some (k, x)
                  | _ => None
                  end) ts
  | _ => None
  end.

Definition dumps (v : pyval) : bytes := bits (encode (to_tree v)).
Definition loads (data : bytes) : option pyval :=
  decode (unbits data) ≫= of_tree.

Definition pack (members : list (string * list Byte.byte)) : bytes :=
  bits (encode (A := list (string * list N))
          (map (λ m, (m.1, map Byte.to_N m.2)) members)).
Definition unpack (data : bytes) : option (list (string * bytes)) :=
  l ← decode (A := list (string * list N)) (unbits data);
  mapM (λ m : string * list N, d ← mapM Byte.of_N m.2; Some (m.1, d)) l.

Definition rt : Runtime := {|
  hasher := bytes;
  sha256 := [];
  sha256_update := λ h block, h ++ block;
  sha256_hexdigest := λ h, pretty (length h);
  json_dumps := dumps;
  json_loads := loads;
  pickle_dumps := dumps;
  pickle_loads := loads;
  targz_partial := λ members, Byte.x00 :: pack members;
  targz_final := pack;
  targz_members := unpack;
  repr := λ _, "<value>";
  exn_str := λ _, "error";
  round2_div := λ a c, QArith_base.Qmake (a * 100 / c) 100;
  isoformat := λ t, pretty t
|}.

End Codec.

Section PureFacts.
Import Packager.

Lemma for_each_app {A S} (body : S → A → result S) xs ys acc :
  for_each body (xs ++ ys) acc = (acc' ← for_each body xs acc; for_each body ys acc').
Proof.
  revert acc. induction xs as [|x xs IH]; intros acc; simpl; [done|].
  destruct (body acc x); simpl; [apply IH|done].
Qed.

Lemma entity_inv e :
  Spec.is_entity e = true →
  ∃ d, e = PDict d
    ∧ Spec.absent_or Spec.is_str (Py.lookup d (PStr "name")) = true
    ∧ Spec.absent_or Spec.is_str (Py.lookup d (PStr "entityType")) = true
    ∧ Spec.absent_or Spec.is_str_list (Py.lookup d (PStr "observations")) = true.
Proof.
  destruct e; simpl; try discriminate.
  rewrite !andb_true_iff. intros [[? ?] ?]. eauto.
Qed.

Lemma str_list_sized l :
  forallb Spec.is_str l = true → Forall (λ o, Py.len o = Ok (Spec.text_length o)) l.
Proof.
  induction l as [|o l IH]; simpl; [constructor|].
  rewrite andb_true_iff. intros [Ho Hl]. constructor; [|auto].
  destruct o; try discriminate. reflexivity.
Qed.

Lemma add_chunks name type items : ∀ cs ms em (k : nat),
  Forall (λ o, Py.len o = Ok (Spec.text_length o)) items →
  for_each (add_chunk name type) items (Embeddings cs ms em, Z.of_nat k) =
  Ok (Embeddings
        (cs ++ imap (λ i o, Spec.chunk (k + i) (name, type, o)) items)
        (ms ++ imap (λ i o, Spec.chunk_metadata (k + i) (name, type, o)) items)
        em,
      Z.of_nat (k + length items)).
Proof.
  induction items as [|o items IH]; intros cs ms em k Hs; simpl.
  - rewrite !app_nil_r, Nat.add_0_r. reflexivity.
  - inversion Hs as [|? ? Ho Hs']; subst. rewrite Ho. simpl.
    replace (Z.of_nat k + 1) with (Z.of_nat (S k)) by lia.
    rewrite IH by done. rewrite Nat.add_0_r, <- !app_assoc. simpl.
    do 2 f_equal; [f_equal|lia].
    + f_equal. f_equal. apply imap_ext. intros i x _. simpl.
      do 4 f_equal. lia.
    + f_equal. f_equal. apply imap_ext. intros i x _. simpl.
      do 4 f_equal. lia.
Qed.

Lemma entity_fields e :
  Spec.is_entity e = true →
  Py.get e "name" (PStr "unknown") = Ok (Spec.name_or_unknown e)
  ∧ Py.get e "entityType" (PStr "unknown") = Ok (Spec.type_or_unknown e)
  ∧ (Py.get e "observations" (PList []) ≫= Py.iter) = Ok (Spec.observations e)
  ∧ Forall (λ o, Py.len o = Ok (Spec.text_length o)) (Spec.observations e)
  ∧ Py.hashable (Spec.name_or_unknown e) = true.
Proof.
  intros (d & -> & Hn & Ht & Ho)%entity_inv.
  unfold Spec.name_or_unknown, Spec.type_or_unknown, Spec.observations, Spec.field.
  simpl. repeat split.
  - destruct (Py.lookup d (PStr "observations")) as [v|]; simpl; [|done].
    simpl in Ho. destruct v; try discriminate. done.
  - destruct (Py.lookup d (PStr "observations")) as [v|]; simpl; [|constructor].
    simpl in Ho. destruct v; try discriminate. by apply str_list_sized.
  - destruct (Py.lookup d (PStr "name")) as [v|]; simpl; [|done].
    simpl in Hn. destruct v; try discriminate. done.
Qed.

Lemma add_entity_spec e cs ms em (k : nat) :
  Spec.is_entity e = true →
  add_entity (Embeddings cs ms em, Z.of_nat k) e =
  Ok (Embeddings
        (cs ++ imap (λ i, Spec.chunk (k + i)) (Spec.traversal [e]))
        (ms ++ imap (λ i, Spec.chunk_metadata (k + i)) (Spec.traversal [e]))
        (Py.store em (Spec.name_or_unknown e) (Spec.type_or_unknown e)),
      Z.of_nat (k + length (Spec.traversal [e]))).
Proof.
  intros He. destruct (entity_fields e He) as (Hn & Ht & Ho & Hs & Hh).
  unfold add_entity. rewrite Hn, Ht. simpl.
  destruct (Py.get e "observations" (PList [])) as [v|]; simpl in Ho; [|done].
  simpl. rewrite Ho. simpl.
  rewrite add_chunks by done. simpl.
  unfold Py.setitem. rewrite Hh. simpl.
  unfold Spec.traversal. simpl. rewrite !app_nil_r, !imap_fmap, !length_fmap.
  reflexivity.
Qed.

Lemma traversal_cons e es :
  Spec.traversal (e :: es) = Spec.traversal [e] ++ Spec.traversal es.
Proof. unfold Spec.traversal. simpl. by rewrite app_nil_r. Qed.

Lemma add_entities es : ∀ cs ms em (k : nat),
  forallb Spec.is_entity es = true →
  for_each add_entity es (Embeddings cs ms em, Z.of_nat k) =
  Ok (Embeddings
        (cs ++ imap (λ i, Spec.chunk (k + i)) (Spec.traversal es))
        (ms ++ imap (λ i, Spec.chunk_metadata (k + i)) (Spec.traversal es))
        (foldl (λ m e, Py.store m (Spec.name_or_unknown e) (Spec.type_or_unknown e))
               em es),
      Z.of_nat (k + length (Spec.traversal es))).
Proof.
  induction es as [|e es IH]; intros cs ms em k Hes.
  - simpl. rewrite !app_nil_r, Nat.add_0_r. reflexivity.
  - simpl in Hes. apply andb_true_iff in Hes as [He Hes].
    cbn [for_each]. rewrite add_entity_spec by done.
    cbn [mbind result_bind]. rewrite IH by done.
    rewrite (traversal_cons e es), !imap_app, !length_app, <- !app_assoc.
    cbn [foldl].
    do 2 f_equal; [f_equal|lia].
    + f_equal. f_equal. apply imap_ext. intros i x _. simpl. f_equal. lia.
    + f_equal. f_equal. apply imap_ext. intros i x _. simpl. f_equal. lia.
Qed.

Lemma create_embeddings_closed_form es :
  forallb Spec.is_entity es = true →
  _create_embeddings_data es =
  Ok (Embeddings (imap Spec.chunk (Spec.traversal es))
                 (imap Spec.chunk_metadata (Spec.traversal es))
                 (Spec.entity_map es)).
Proof.
  intros Hes. unfold _create_embeddings_data.
  change 0 with (Z.of_nat 0). rewrite add_entities by done. reflexivity.
Qed.

Lemma observation_counts_spec es :
  forallb Spec.is_entity es = true →
  observation_counts es = Ok ((λ e, Z.of_nat (length (Spec.observations e))) <$> es).
Proof.
  induction es as [|e es IH]; simpl; [done|].
  intros [He Hes]%andb_true_iff.
  apply entity_inv in He as (d & -> & _ & _ & Ho).
  simpl. unfold Spec.observations, Spec.field.
  destruct (Py.lookup d (PStr "observations")) as [v|]; simpl.
  - simpl in Ho. destruct v; try discriminate. simpl. rewrite IH by done. done.
  - rewrite IH by done. done.
Qed.

Lemma sum_observations es :
  Py.sum ((λ e, Z.of_nat (length (Spec.observations e))) <$> es)
  = Z.of_nat (length (Spec.traversal es)).
Proof.
  induction es as [|e es IH]; [done|].
  rewrite traversal_cons, length_app, fmap_cons.
  unfold Py.sum in *. cbn [foldr]. rewrite IH.
  unfold Spec.traversal. simpl. rewrite app_nil_r, length_fmap. lia.
Qed.

Lemma total_observations_spec es :
  forallb Spec.is_entity es = true →
  total_observations es = Ok (Z.of_nat (length (Spec.traversal es))).
Proof.
  intros Hes. unfold total_observations. rewrite observation_counts_spec by done.
  simpl. by rewrite sum_observations.
Qed.

Lemma lookup_store_same m k v :
  Py.key_eqb k k = true → Py.lookup (Py.store m k v) k = Some v.
Proof.
  intros Hk. induction m as [|[k' v'] m IH]; simpl.
  - by rewrite Hk.
  - destruct (Py.key_eqb k' k) eqn:E; simpl; rewrite E; done.
Qed.

Lemma lookup_store_is_Some m k k' v' :
  is_Some (Py.lookup m k) → is_Some (Py.lookup (Py.store m k' v') k).
Proof.
  induction m as [|[k0 v0] m IH]; simpl; [by intros [? ?]|].
  intros H. destruct (Py.key_eqb k0 k') eqn:E; simpl;
    destruct (Py.key_eqb k0 k) eqn:E'; eauto.
Qed.

Lemma entity_map_has_name es : ∀ em e,
  forallb Spec.is_entity es = true → e ∈ es →
  is_Some (Py.lookup
    (foldl (λ m e, Py.store m (Spec.name_or_unknown e) (Spec.type_or_unknown e)) em es)
    (Spec.name_or_unknown e)).
Proof.
  induction es as [|e0 es IH] using rev_ind; intros em e Hes He.
  - by apply elem_of_nil in He.
  - rewrite forallb_app in Hes. apply andb_true_iff in Hes as [Hes He0].
    rewrite foldl_app. cbn [foldl].
    apply elem_of_app in He as [He|He].
    + apply lookup_store_is_Some. by apply IH.
    + apply list_elem_of_singleton in He as ->.
      rewrite lookup_store_same; [done|].
      simpl in He0. rewrite andb_true_r in He0.
      apply entity_inv in He0 as (d & -> & Hn & _).
      unfold Spec.name_or_unknown, Spec.field.
      destruct (Py.lookup d (PStr "name")) as [v|]; simpl.
      * simpl in Hn. destruct v; try discriminate. simpl. apply String.eqb_refl.
      * reflexivity.
Qed.

Lemma extract_skill_spec skills e :
  Spec.is_entity e = true →
  extract_skill skills e =
  Ok (match Spec.entity_skill e with
      | Some tag => {[tag]} ∪ skills
      | None => skills
      end).
Proof.
  intros (d & -> & Hn & Ht & _)%entity_inv.
  unfold extract_skill, Spec.entity_skill, Spec.skill_tag, Spec.field, Spec.slugify.
  simpl.
  destruct (Py.lookup d (PStr "entityType")) as [t|]; simpl;
    [simpl in Ht; destruct t; try discriminate|]; simpl;
    (destruct (Py.lookup d (PStr "name")) as [n|]; simpl;
     [simpl in Hn; destruct n; try discriminate|]); simpl;
    repeat case_match; simpl; try done.
Qed.

Lemma extract_skills_loop es : ∀ skills,
  forallb Spec.is_entity es = true →
  ∃ skills', for_each extract_skill es skills = Ok skills'
    ∧ ∀ tag, tag ∈ skills' ↔
        tag ∈ skills ∨ ∃ e, e ∈ es ∧ Spec.entity_skill e = Some tag.
Proof.
  induction es as [|e es IH]; intros skills Hes.
  - exists skills. split; [done|]. intros tag. split; [auto|].
    intros [?|(e & He & _)]; [done|]. by apply elem_of_nil in He.
  - simpl in Hes. apply andb_true_iff in Hes as [He Hes].
    cbn [for_each]. rewrite extract_skill_spec by done. cbn [mbind result_bind].
    destruct (IH (match Spec.entity_skill e with
                  | Some tag => {[tag]} ∪ skills | None => skills end) Hes)
      as (skills' & Hrun & Hin).
    exists skills'. split; [done|]. intros tag. rewrite Hin. split.
    + intros [Ht|(e' & He' & Htag)].
      * destruct (Spec.entity_skill e) as [t|] eqn:Et; [|auto].
        apply elem_of_union in Ht as [->%elem_of_singleton|?]; [|auto].
        right. exists e. split; [left|done].
      * right. exists e'. split; [by right|done].
    + intros [Ht|(e' & He' & Htag)].
      * left. destruct (Spec.entity_skill e); [apply elem_of_union; by right|done].
      * apply elem_of_cons in He' as [->|He'].
        -- left. rewrite Htag. apply elem_of_union. left. by apply elem_of_singleton.
        -- right. eauto.
Qed.

(** C5. Encoding N entities with M observations in all yields M chunks
    and M metadata records; the i-th chunk has id i, the i-th metadata
    record has chunk_id i, and the chunks follow the entity-then-observation
    traversal. *)
Theorem encoder_chunk_ids (entities : list pyval) :
  forallb Spec.is_entity entities = true →
  ∃ (ed : embeddings) (M : nat),
    _create_embeddings_data entities = Ok ed
    ∧ total_observations entities = Ok (Z.of_nat M)
    ∧ length (chunks ed) = M
    ∧ length (metadata ed) = M
    ∧ (∀ i c, chunks ed !! i = Some c →
         Py.getitem c "id" = Ok (PInt (Z.of_nat i)))
    ∧ (∀ i m, metadata ed !! i = Some m →
         Py.getitem m "chunk_id" = Ok (PInt (Z.of_nat i)))
    ∧ chunks ed = imap Spec.chunk (Spec.traversal entities).
Proof.
  intros Hes. eexists _, (length (Spec.traversal entities)).
  split; [by apply create_embeddings_closed_form|]. cbn [chunks metadata].
  split; [by apply total_observations_spec|].
  rewrite !length_imap. repeat split.
  - intros i c. rewrite list_lookup_imap.
    destruct (Spec.traversal entities !! i) as [[[n t] o]|]; [|done].
    by intros [= <-].
  - intros i m. rewrite list_lookup_imap.
    destruct (Spec.traversal entities !! i) as [[[n t] o]|]; [|done].
    by intros [= <-].
Qed.


(** C10. On entity dicts with missing keys the encoder and the skill
    extractor raise nothing: a missing name or entityType is encoded as
    the placeholder "unknown" in chunks, metadata and entity_map, and an
    entity without observations adds no chunk but has its entity_map
    entry. *)
Theorem encoder_total_on_missing_fields (entities : list pyval) :
  forallb Spec.is_entity entities = true →
  (∃ skills, _extract_skills entities = Ok skills)
  ∧ ∃ ed : embeddings,
      _create_embeddings_data entities = Ok ed
      ∧ chunks ed = imap Spec.chunk (Spec.traversal entities)
      ∧ metadata ed = imap Spec.chunk_metadata (Spec.traversal entities)
      ∧ entity_map ed = Spec.entity_map entities
      ∧ (∀ e, e ∈ entities →
           is_Some (Py.lookup (entity_map ed) (Spec.name_or_unknown e)))
      ∧ (∀ d, Py.lookup d (PStr "name") = None →
           Spec.name_or_unknown (PDict d) = PStr "unknown")
      ∧ (∀ d, Py.lookup d (PStr "entityType") = None →
           Spec.type_or_unknown (PDict d) = PStr "unknown")
      ∧ (∀ d, Py.lookup d (PStr "observations") = None →
           Spec.traversal [PDict d] = []).
Proof.
  intros Hes. split.
  - destruct (extract_skills_loop entities ∅ Hes) as (set & Hrun & _).
    exists (elements set). unfold _extract_skills. by rewrite Hrun.
  - eexists. split; [by apply create_embeddings_closed_form|].
    cbn [chunks metadata entity_map]. repeat split.
    + intros e He. by apply entity_map_has_name.
    + intros d Hd. unfold Spec.name_or_unknown, Spec.field. by rewrite Hd.
    + intros d Hd. unfold Spec.type_or_unknown, Spec.field. by rewrite Hd.
    + intros d Hd. unfold Spec.traversal, Spec.observations, Spec.field.
      simpl. by rewrite Hd.
Qed.
End PureFacts.

(** ** Rules of the logic *)

Section Rules.
Context {A B : Type}.

Lemma hoare_conseq (P P' : state → Prop) (m : M A) Q Q' E E' :
  hoare P' m Q' E' →
  (∀ s, P s → P' s) → (∀ a s, Q' a s → Q a s) → (∀ e s, E' e s → E e s) →
  hoare P m Q E.
Proof.
  intros H HP HQ HE s Hs. specialize (H s (HP s Hs)).
  destruct (m s) as [[a|e] s']; auto.
Qed.

Lemma hoare_ret P (a : A) (Q : A → state → Prop) E :
  (∀ s, P s → Q a s) → hoare P (mret a) Q E.
Proof. intros H s Hs. by apply H. Qed.

Lemma hoare_raise P (e : exn) (Q : A → state → Prop) (E : exn → state → Prop) :
  (∀ s, P s → E e s) → hoare P (raise e) Q E.
Proof. intros H s Hs. by apply H. Qed.

Lemma hoare_bind P (m : M A) (f : A → M B) R Q E :
  hoare P m R E → (∀ a, hoare (R a) (f a) Q E) → hoare P (m ≫= f) Q E.
Proof.
  intros Hm Hf s Hs. specialize (Hm s Hs). unfold mbind, M_bind.
  destruct (m s) as [[a|e] s']; [by apply Hf|done].
Qed.

(** Sequencing, the first part's exceptional postcondition weakened. *)
Lemma hoare_seq P (m : M A) (f : A → M B) R Q E E' :
  hoare P m R E' → (∀ e s, E' e s → E e s) →
  (∀ a, hoare (R a) (f a) Q E) → hoare P (m ≫= f) Q E.
Proof.
  intros Hm HE Hf. eapply hoare_bind; [|exact Hf].
  eapply hoare_conseq; [exact Hm|auto..].
Qed.

(** Sequencing after a part that keeps the precondition. *)
Lemma hoare_keep I (m : M A) (f : A → M B) Q (E : exn → state → Prop) :
  preserves I m → (∀ e s, I s → E e s) →
  (∀ a, hoare I (f a) Q E) → hoare I (m ≫= f) Q E.
Proof. intros Hm HE Hf. eapply hoare_seq; [exact Hm|auto|exact Hf]. Qed.

Lemma hoare_lift P (r : result A) (Q : A → state → Prop) E :
  (∀ a s, r = Ok a → P s → Q a s) → (∀ e s, r = Raise e → P s → E e s) →
  hoare P (lift r) Q E.
Proof. intros HQ HE s Hs. unfold lift. destruct r; auto. Qed.

Lemma hoare_gets P (g : state → A) (Q : A → state → Prop) E :
  (∀ s, P s → Q (g s) s) → hoare P (gets g) Q E.
Proof. intros H s Hs. by apply H. Qed.

Lemma hoare_modify P (g : state → state) (Q : unit → state → Prop) E :
  (∀ s, P s → Q tt (g s)) → hoare P (modify g) Q E.
Proof. intros H s Hs. by apply H. Qed.

Lemma hoare_try P (body : M A) handler Q E E' :
  hoare P body Q E' → (∀ e, hoare (E' e) (handler e) Q E) →
  hoare P (try_except body handler) Q E.
Proof.
  intros Hb Hh s Hs. specialize (Hb s Hs). unfold try_except.
  destruct (body s) as [[a|e] s']; [done|by apply Hh].
Qed.

Lemma hoare_io P (op : M A) Q (E : exn → state → Prop) (P' : state → Prop) :
  (∀ s plan, P s → P' (set_faults plan s)) → (∀ s, P s → P' s) →
  (∀ s, P' s → E OSError s) →
  hoare P' op Q E → hoare P (io op) Q E.
Proof.
  intros Hf Hp He Hop s Hs. unfold io.
  destruct (faults s) as [|[] plan]; [by apply Hop, Hp| |by apply Hop, Hf].
  by apply He, Hf.
Qed.

Lemma hoare_pure (P : state → Prop) (φ : Prop) (m : M A) Q E :
  (φ → hoare P m Q E) → hoare (λ s, P s ∧ φ) m Q E.
Proof. intros H s [Hs Hφ]. by apply H. Qed.

Lemma preserves_ret I (a : A) : preserves I (mret a).
Proof. by apply hoare_ret. Qed.

Lemma preserves_raise I (e : exn) : preserves I (raise e : M A).
Proof. by apply hoare_raise. Qed.

Lemma preserves_lift I (r : result A) : preserves I (lift r).
Proof. by apply hoare_lift. Qed.

Lemma preserves_gets I (g : state → A) : preserves I (gets g).
Proof. by apply hoare_gets. Qed.

Lemma preserves_bind I (m : M A) (f : A → M B) :
  preserves I m → (∀ a, preserves I (f a)) → preserves I (m ≫= f).
Proof. intros Hm Hf. eapply hoare_bind; [exact Hm|exact Hf]. Qed.

Lemma preserves_try I (body : M A) handler :
  preserves I body → (∀ e, preserves I (handler e)) →
  preserves I (try_except body handler).
Proof. intros Hb Hh. eapply hoare_try; [exact Hb|exact Hh]. Qed.

Lemma preserves_io I (op : M A) :
  frame I → preserves I op → preserves I (io op).
Proof.
  intros HI Hop. eapply hoare_io with (P' := I); auto.
  intros. by apply frame_faults.
Qed.
End Rules.

Lemma preserves_print I line : frame I → preserves I (print line).
Proof. intros HI. apply hoare_modify. intros. by apply frame_out. Qed.

Lemma preserves_for {A} I (xs : list A) body :
  (∀ x, preserves I (body x)) → preserves I (for_ xs body).
Proof.
  intros Hb. induction xs as [|x xs IH]; simpl.
  - apply preserves_ret.
  - apply preserves_bind; [apply Hb|intros _; apply IH].
Qed.

Lemma ignores_keeps p I : ignores p I → keeps p I.
Proof.
  intros H s es es' _ HI. apply H; [|done].
  intros q Hq. by rewrite lookup_insert_ne.
Qed.

Create HintDb pres discriminated.
#[global] Hint Resolve ignores_keeps : pres.

(** One step of a proof that a program keeps an invariant: the rule of the
    program's head, or the hints for a named method or primitive. *)
Ltac pres_step :=
  lazymatch goal with
  | |- preserves _ (mret _) => apply preserves_ret
  | |- preserves _ (raise _) => apply preserves_raise
  | |- preserves _ (lift _) => apply preserves_lift
  | |- preserves _ (gets _) => apply preserves_gets
  | |- preserves _ (_ ≫= _) => apply preserves_bind
  | |- preserves _ (print _) => apply preserves_print
  | |- preserves _ (io _) => apply preserves_io
  | |- preserves _ (for_ _ _) => apply preserves_for
  | |- preserves _ (try_except _ _) => apply preserves_try
  | |- preserves _ (match ?x with _ => _ end) => destruct x
  | |- preserves _ _ => solve [eauto 6 with pres]
  | |- frame _ => solve [eauto 6 with pres]
  | |- keeps _ _ => solve [eauto 6 with pres]
  | |- ignores _ _ => solve [eauto 6 with pres]
  | |- _ => intro
  end.

Ltac pres := repeat pres_step.

Section Primitives.
Context (I : state → Prop) (HI : frame I).

Lemma preserves_exists p : preserves I (Fs.exists_ p).
Proof. unfold Fs.exists_. pres. Qed.
#[local] Hint Resolve preserves_exists : pres.

Lemma preserves_listing p : preserves I (Fs.listing p).
Proof. unfold Fs.listing. pres. Qed.
#[local] Hint Resolve preserves_listing : pres.

Lemma preserves_open_r dir name : preserves I (Fs.open_r dir name).
Proof using HI. unfold Fs.open_r. pres. Qed.
#[local] Hint Resolve preserves_open_r : pres.

Lemma preserves_open_rb p : preserves I (Fs.open_rb p).
Proof using HI. unfold Fs.open_rb. pres. Qed.
#[local] Hint Resolve preserves_open_rb : pres.

Lemma preserves_read_all h : preserves I (Fs.read_all h).
Proof using HI. unfold Fs.read_all. pres. Qed.
#[local] Hint Resolve preserves_read_all : pres.

Lemma preserves_read n h : preserves I (Fs.read n h).
Proof using HI. unfold Fs.read. pres. Qed.
#[local] Hint Resolve preserves_read : pres.

Lemma preserves_iterdir dir : preserves I (Fs.iterdir dir).
Proof using HI. unfold Fs.iterdir. pres. Qed.
#[local] Hint Resolve preserves_iterdir : pres.

Lemma preserves_dir_update dir (g : gmap string bytes → gmap string bytes) :
  keeps dir I →
  preserves I (es ← Fs.listing dir;
               modify (λ s, set_fs (<[dir := Dir (g es)]> (fs s)) s)).
Proof.
  intros Hk s Hs. cbv [mbind M_bind Fs.listing gets modify mret M_ret raise].
  destruct (fs s !! dir) as [[data|es]|] eqn:E; auto.
  by eapply Hk.
Qed.
#[local] Hint Resolve preserves_dir_update : pres.

Lemma preserves_open_w dir name : keeps dir I → preserves I (Fs.open_w dir name).
Proof using HI.
  intros Hk. unfold Fs.open_w. apply preserves_io; [done|].
  by apply (preserves_dir_update dir (λ es, <[name := []]> es)).
Qed.
#[local] Hint Resolve preserves_open_w : pres.

Lemma preserves_write dir name data :
  keeps dir I → preserves I (Fs.write dir name data).
Proof using HI.
  intros Hk. unfold Fs.write. apply preserves_io; [done|].
  by apply (preserves_dir_update dir (λ es, <[name := data]> es)).
Qed.
#[local] Hint Resolve preserves_write : pres.

Lemma preserves_mkdir p : ignores p I → preserves I (Fs.mkdir_exist_ok p).
Proof using HI.
  intros Hg. unfold Fs.mkdir_exist_ok. pres.
  apply hoare_modify. intros s Hs. apply Hg; [|done].
  intros q Hq. by rewrite lookup_insert_ne.
Qed.
#[local] Hint Resolve preserves_mkdir : pres.

Lemma preserves_rmtree p : ignores p I → preserves I (Fs.rmtree p).
Proof using HI.
  intros Hg. unfold Fs.rmtree. pres.
  apply hoare_modify. intros s Hs. apply Hg; [|done].
  intros q Hq. by rewrite lookup_delete_ne.
Qed.
#[local] Hint Resolve preserves_rmtree : pres.

Lemma preserves_put_file p data : ignores p I → preserves I (Fs.put_file p data).
Proof.
  intros Hg. unfold Fs.put_file. pres;
    (apply hoare_modify; intros s Hs; apply Hg; [|done];
     intros q Hq; by rewrite lookup_insert_ne).
Qed.
#[local] Hint Resolve preserves_put_file : pres.
End Primitives.

#[global] Hint Resolve preserves_exists preserves_listing preserves_open_r
  preserves_open_rb preserves_read_all preserves_read preserves_iterdir
  preserves_open_w preserves_write preserves_mkdir preserves_rmtree
  preserves_put_file : pres.

Section Composite.
Context (rt : Runtime) (I : state → Prop) (HI : frame I).

Lemma preserves_datetime_now : preserves I (datetime_now rt).
Proof. unfold datetime_now. pres. Qed.
#[local] Hint Resolve preserves_datetime_now : pres.

Lemma preserves_hash_blocks fuel : ∀ f h, preserves I (hash_blocks rt fuel f h).
Proof using HI. induction fuel as [|fuel IH]; simpl; pres. Qed.
#[local] Hint Resolve preserves_hash_blocks : pres.

Lemma preserves_calculate_hash p : preserves I (_calculate_hash rt p).
Proof using HI. unfold _calculate_hash. pres. Qed.
#[local] Hint Resolve preserves_calculate_hash : pres.
End Composite.

#[global] Hint Resolve preserves_datetime_now preserves_hash_blocks
  preserves_calculate_hash : pres.

Section LoaderFrame.
Import Loader.
Context (rt : Runtime) (I : state → Prop) (HI : frame I).

Lemma preserves_sleep1 : preserves I sleep1.
Proof using HI. apply hoare_modify. intros. by apply frame_clock. Qed.
#[local] Hint Resolve preserves_sleep1 : pres.

Lemma preserves_download_from_url url n : preserves I (_download_from_url url n).
Proof using HI. unfold _download_from_url. pres. Qed.
#[local] Hint Resolve preserves_download_from_url : pres.

Lemma preserves_locate n url : preserves I (locate n url).
Proof using HI. unfold locate. pres. Qed.
#[local] Hint Resolve preserves_locate : pres.

Lemma preserves_verify_module p : preserves I (_verify_module rt p).
Proof using HI. unfold _verify_module. pres. Qed.
#[local] Hint Resolve preserves_verify_module : pres.

Lemma preserves_execute_install_step step dir :
  preserves I (_execute_install_step rt step dir).
Proof using HI. unfold _execute_install_step. pres. Qed.
#[local] Hint Resolve preserves_execute_install_step : pres.

Lemma preserves_tar_open_r p : preserves I (tar_open_r rt p).
Proof using HI. unfold tar_open_r. pres. Qed.
#[local] Hint Resolve preserves_tar_open_r : pres.

Lemma preserves_extractall dir members :
  keeps dir I → preserves I (extractall dir members).
Proof using HI.
  intros Hk. unfold extractall. apply preserves_io; [done|].
  by apply (preserves_dir_update I dir (λ es, list_to_map (reverse members) ∪ es)).
Qed.
#[local] Hint Resolve preserves_extractall : pres.

Lemma preserves_load_json dir name : preserves I (load_json rt dir name).
Proof using HI. unfold load_json. pres. Qed.
#[local] Hint Resolve preserves_load_json : pres.

Lemma preserves_read_archive p dir :
  keeps dir I → preserves I (read_archive rt p dir).
Proof using HI.
  intros Hk. unfold read_archive. pres.
Qed.
#[local] Hint Resolve preserves_read_archive : pres.

Lemma preserves_run_install_steps manifest dir :
  ignores dir I → preserves I (run_install_steps rt manifest dir).
Proof using HI.
  intros Hg. unfold run_install_steps. pres.
Qed.
#[local] Hint Resolve preserves_run_install_steps : pres.

Lemma preserves_install_module p n :
  ignores ("temp_" +:+ n) I → preserves I (_install_module rt p n).
Proof using HI.
  intros Hg. unfold _install_module, install_body. pres.
Qed.
#[local] Hint Resolve preserves_install_module : pres.
End LoaderFrame.

#[global] Hint Resolve preserves_sleep1 preserves_download_from_url
  preserves_locate preserves_verify_module preserves_execute_install_step
  preserves_tar_open_r preserves_extractall preserves_load_json
  preserves_read_archive preserves_run_install_steps preserves_install_module
  : pres.

Lemma registry_frame r : frame (registry_is r).
Proof. by split. Qed.

Lemma registry_ignores r p : ignores p (registry_is r).
Proof. by intros s f _ H. Qed.


Section Registry.
Import Loader.
Context (rt : Runtime).

Lemma locate_path I n url :
  frame I →
  hoare I (locate n url)
    (λ o s, I s ∧ ∀ p, o = Some p → p = n +:+ ".mkm") (λ _, I).
Proof.
  intros HI. unfold locate, _download_from_url.
  destruct (negb (truthy url)).
  - eapply hoare_bind; [apply preserves_exists|]. intros found.
    destruct (negb found).
    + eapply hoare_bind; [by apply preserves_print|]. intros ?; cbv beta.
      eapply hoare_bind; [by apply preserves_print|]. intros ?; cbv beta.
      apply hoare_ret. intros s Hs. split; [done|]. by intros p [=].
    + apply hoare_ret. intros s Hs. split; [done|]. by intros p [= <-].
  - eapply hoare_bind.
    + eapply hoare_bind; [by apply preserves_print|]. intros ?; cbv beta.
      eapply hoare_bind; [by apply preserves_sleep1|]. intros ?; cbv beta.
      apply (hoare_ret _ _ (λ p s, I s ∧ p = n +:+ ".mkm")). auto.
    + intros p. apply hoare_ret. intros s [Hs Hp]. split; [done|]. by intros ? [= <-].
Qed.

Lemma download_skill_registry r n url :
  hoare (registry_is r) (download_skill rt n url)
    (λ b s, if b
            then ∃ t, installed_modules s =
                      <[n := Spec.installed_record (n +:+ ".mkm") t]> r
            else installed_modules s = r)
    (λ _ s, installed_modules s = r).
Proof.
  pose proof (registry_frame r) as HI.
  unfold download_skill.
  eapply hoare_bind; [by apply preserves_print|]. intros ?; cbv beta.
  eapply hoare_bind; [by apply locate_path|]. intros [p|]; cbv beta.
  2:{ apply hoare_ret. by intros s [Hs _]. }
  apply hoare_pure. intros Hp. rewrite (Hp p eq_refl). clear Hp p.
  eapply hoare_bind; [by apply preserves_print|]. intros ?; cbv beta.
  eapply hoare_bind; [by apply preserves_verify_module|]. intros verified; cbv beta.
  destruct (negb verified).
  { eapply hoare_bind; [by apply preserves_print|]. intros ?; cbv beta.
    by apply hoare_ret. }
  eapply hoare_bind; [by apply preserves_print|]. intros ?; cbv beta.
  eapply hoare_bind;
    [apply preserves_install_module; [done|apply registry_ignores]|].
  intros [|]; cbv beta.
  - intros s Hs. cbv [mbind M_bind print modify gets mret M_ret].
    exists (loop_time s). simpl. unfold registry_is in Hs. by rewrite Hs.
  - eapply hoare_bind; [by apply preserves_print|]. intros ?; cbv beta.
    by apply hoare_ret.
Qed.
End Registry.

(** ** Running without injected faults *)

Lemma io_quiet {A} (op : M A) s :
  Spec.quiet s →
  ∃ plan, Forall (λ b, b = false) plan ∧ io op s = op (set_faults plan s).
Proof.
  unfold Spec.quiet, io. destruct s as [f o w t pl r]; simpl.
  destruct pl as [|[] pl]; intros H.
  - exists []. split; [constructor|done].
  - inversion H; discriminate.
  - exists pl. split; [by inversion H|done].
Qed.

Lemma blocks_concat fuel : ∀ f,
  (length f < fuel)%nat → concat (Spec.blocks fuel 4096 f) = f.
Proof.
  induction fuel as [|fuel IH]; intros f Hlen; [lia|]. cbn [Spec.blocks].
  destruct (take 4096 f) as [|b bs] eqn:E.
  - destruct f; [done|discriminate].
  - cbn [concat]. rewrite IH.
    + rewrite <- E. apply take_drop.
    + rewrite length_drop. destruct f; [discriminate|]. simpl in *. lia.
Qed.

Section Hashing.
Context (rt : Runtime).

Lemma hash_blocks_quiet fuel : ∀ f h s,
  Spec.quiet s →
  ∃ plan, Forall (λ b, b = false) plan
    ∧ hash_blocks rt fuel f h s =
      (Ok (foldl (sha256_update rt) h (Spec.blocks fuel 4096 f)),
       set_faults plan s).
Proof.
  induction fuel as [|fuel IH]; intros f h s Hq.
  - exists (faults s). split; [done|]. by destruct s.
  - cbn [hash_blocks Spec.blocks]. unfold mbind, M_bind, Fs.read.
    destruct (io_quiet (mret (take 4096 f, drop 4096 f)) s Hq) as (plan & Hplan & ->).
    cbv [mret M_ret].
    destruct (take 4096 f) as [|b bs] eqn:E.
    + exists plan. done.
    + cbn [foldl].
      destruct (IH (drop 4096 f) (sha256_update rt h (b :: bs))
                   (set_faults plan s))
        as (plan' & Hplan' & ->); [done|].
      exists plan'. done.
Qed.

Lemma open_rb_quiet p data s :
  fs s !! p = Some (File data) → Spec.quiet s →
  ∃ plan, Forall (λ b, b = false) plan
    ∧ Fs.open_rb p s = (Ok data, set_faults plan s).
Proof.
  intros Hp Hq. unfold Fs.open_rb.
  destruct (io_quiet (n ← gets (λ s, fs s !! p);
                      match n with
                      | Some (File data) => mret data
                      | Some (Dir _) => raise (IsADirectoryError p)
                      | None => raise (FileNotFoundError p)
                      end) s Hq) as (plan & Hplan & ->).
  exists plan. split; [done|].
  cbv [mbind M_bind gets]. cbn [fs set_faults]. by rewrite Hp.
Qed.

Lemma calculate_hash_quiet p data s :
  fs s !! p = Some (File data) → Spec.quiet s →
  ∃ plan, Forall (λ b, b = false) plan
    ∧ _calculate_hash rt p s = (Ok (Spec.digest rt data), set_faults plan s).
Proof.
  intros Hp Hq. unfold _calculate_hash.
  destruct (open_rb_quiet p data s Hp Hq) as (plan & Hplan & Hopen).
  destruct (hash_blocks_quiet (S (length data)) data (sha256 rt) (set_faults plan s))
    as (plan' & Hplan' & Hhash); [done|].
  exists plan'. split; [done|].
  unfold mbind, M_bind at 1. rewrite Hopen.
  unfold M_bind. rewrite Hhash. reflexivity.
Qed.
End Hashing.

Section HashingAlways.
Context (rt : Runtime).

Lemma open_rb_reads p f0 :
  hoare (λ s, fs s = f0) (Fs.open_rb p)
    (λ data s, fs s = f0 ∧ f0 !! p = Some (File data)) (λ _ _, True).
Proof.
  intros s Hs. unfold Fs.open_rb, io.
  destruct (faults s) as [|[] plan]; [|done|];
    cbv [mbind M_bind gets mret M_ret raise]; cbn [fs set_faults];
    rewrite Hs; by destruct (f0 !! p) as [[data|es]|].
Qed.

Lemma read_block I n f :
  frame I →
  hoare I (Fs.read n f) (λ r s, I s ∧ r = (take n f, drop n f)) (λ _ _, True).
Proof.
  intros HI. unfold Fs.read. apply hoare_io with (P' := I).
  - intros. by apply frame_faults.
  - done.
  - done.
  - by apply hoare_ret.
Qed.

(** Whenever the reading loop ends without raising, every block of the
    file went into the hasher. *)
Lemma hash_blocks_all I fuel : ∀ f h,
  frame I →
  hoare I (hash_blocks rt fuel f h)
    (λ h' s, I s ∧ h' = foldl (sha256_update rt) h (Spec.blocks fuel 4096 f))
    (λ _ _, True).
Proof.
  induction fuel as [|fuel IH]; intros f h HI; cbn [hash_blocks Spec.blocks].
  - by apply hoare_ret.
  - eapply hoare_seq; [by apply read_block|done|].
    intros [byte_block rest]; cbv beta. apply hoare_pure. intros [= -> ->].
    destruct (take 4096 f) as [|b0 bs] eqn:E.
    + by apply hoare_ret.
    + cbn [foldl]. by apply IH.
Qed.

Lemma fs_is_frame f0 : frame (λ s, fs s = f0).
Proof. by split. Qed.

Lemma calculate_hash_digest p f0 :
  hoare (λ s, fs s = f0) (_calculate_hash rt p)
    (λ h s, fs s = f0
            ∧ ∃ data, f0 !! p = Some (File data) ∧ h = Spec.digest rt data)
    (λ _ _, True).
Proof.
  unfold _calculate_hash.
  eapply hoare_seq; [apply open_rb_reads|done|]. intros data; cbv beta.
  apply hoare_pure. intros Hdata.
  eapply hoare_seq; [apply hash_blocks_all, fs_is_frame|done|].
  intros h; cbv beta. apply hoare_pure. intros ->.
  apply hoare_ret. intros s Hs. split; [done|]. by exists data.
Qed.
End HashingAlways.

Section LoaderFacts.
Import Loader.
Context (rt : Runtime).

(** C9. Verification never reports failure: whenever it returns, it
    returns [True], having printed the first 16 characters of the digest
    of the archive's content, which it compares with nothing; and on an
    existing file read without I/O failure it does return. *)
Theorem verification_always_succeeds (module_path : string) (s : state) :
  match _verify_module rt module_path s with
  | (Ok verified, s') =>
      verified = true
      ∧ ∃ data,
          fs s !! module_path = Some (File data)
          ∧ last (stdout s') =
            Some ("📝 Module hash: " +:+ prefix16 (Spec.digest rt data) +:+ "...")
  | (Raise _, _) => True
  end
  ∧ ∀ data,
      fs s !! module_path = Some (File data) → Spec.quiet s →
      concat (Spec.blocks (S (length data)) 4096 data) = data
      ∧ ∃ s', _verify_module rt module_path s = (Ok true, s')
          ∧ stdout s' = stdout s ++
              ["📝 Module hash: " +:+ prefix16 (Spec.digest rt data) +:+ "..."]
          ∧ fs s' = fs s
          ∧ installed_modules s' = installed_modules s.
Proof.
  split.
  - pose proof (calculate_hash_digest rt module_path (fs s) s eq_refl) as H.
    unfold _verify_module, mbind, M_bind.
    destruct (_calculate_hash rt module_path s) as [[h|e] s1]; [|done].
    destruct H as (_ & data & Hdata & ->).
    cbv [print modify mret M_ret]. split; [done|]. exists data.
    split; [done|]. cbn [stdout add_line]. apply last_snoc.
  - intros data Hp Hq. split; [apply blocks_concat; lia|].
    destruct (calculate_hash_quiet rt module_path data s Hp Hq)
      as (plan & _ & Hhash).
    eexists. split.
    + unfold _verify_module, mbind, M_bind. rewrite Hhash. reflexivity.
    + done.
Qed.

(** C2, what the code does: with a source URL and no file at the expected
    local path, [download_skill] raises. *)
Theorem download_skill_raises_without_file (skill_name : string)
    (source_url : option string) (s : state) :
  truthy source_url = true →
  fs s !! (skill_name +:+ ".mkm") = None →
  ∃ e s', download_skill rt skill_name source_url s = (Raise e, s')
    ∧ (faults s = [] → e = FileNotFoundError (skill_name +:+ ".mkm")).
Proof.
  intros Hurl Hfile.
  unfold download_skill, locate. rewrite Hurl.
  cbv [negb mbind M_bind print modify _download_from_url sleep1 mret M_ret
       _verify_module _calculate_hash Fs.open_rb io gets raise].
  cbn [faults fs add_line set_loop_time set_faults].
  destruct (faults s) as [|[] plan]; rewrite ?Hfile; eauto.
  eexists _, _. split; [reflexivity|]. discriminate.
Qed.

Lemma for_app {A} (xs ys : list A) (body : A → M unit) s :
  for_ (xs ++ ys) body s =
  match for_ xs body s with
  | (Ok _, s1) => for_ ys body s1
  | (Raise e, s1) => (Raise e, s1)
  end.
Proof.
  revert s. induction xs as [|x xs IH]; intros s; [done|].
  cbn [app for_]. unfold mbind, M_bind.
  destruct (body x s) as [[[]|e] s1]; [apply IH|done].
Qed.

(** C3. The steps run in the order of the manifest's list: those before
    step k first, then step k, then those after it; and when step k
    raises, the install ends there, in the state step k left, with the
    error reported and no later step run. *)
Theorem install_steps_run_in_order (extract_dir : string)
    (pre post : list pyval) (step : pyval) :
  (∀ s,
     for_ (pre ++ step :: post) (λ st, _execute_install_step rt st extract_dir) s =
     match for_ pre (λ st, _execute_install_step rt st extract_dir) s with
     | (Ok _, s1) =>
         match _execute_install_step rt step extract_dir s1 with
         | (Ok _, s2) =>
             for_ post (λ st, _execute_install_step rt st extract_dir) s2
         | (Raise e, s2) => (Raise e, s2)
         end
     | (Raise e, s1) => (Raise e, s1)
     end)
  ∧ ∀ module_path skill_name manifest e s0 s1 s2 s3 s4,
      extract_dir = "temp_" +:+ skill_name →
      Fs.mkdir_exist_ok extract_dir s0 = (Ok (), s1) →
      read_archive rt module_path extract_dir s1 = (Ok manifest, s2) →
      Py.getitem manifest "install_steps" = Ok (PList (pre ++ step :: post)) →
      for_ pre (λ st, _execute_install_step rt st extract_dir) s2 = (Ok (), s3) →
      _execute_install_step rt step extract_dir s3 = (Raise e, s4) →
      _install_module rt module_path skill_name s0 =
      (Ok false, add_line ("❌ Installation error: " +:+ exn_str rt e) s4).
Proof.
  split.
  - intros s. rewrite for_app.
    destruct (for_ pre _ s) as [[[]|e] s1]; [|done].
    cbn [for_]. unfold mbind, M_bind.
    by destruct (_execute_install_step rt step extract_dir s1) as [[[]|e] s2].
  - intros module_path skill_name manifest e s0 s1 s2 s3 s4
      -> Hmk Hread Hsteps Hpre Hstep.
    unfold _install_module, mbind, M_bind at 1. rewrite Hmk.
    unfold try_except, install_body, mbind, M_bind at 1. rewrite Hread.
    unfold run_install_steps, mbind, M_bind at 1, lift at 1. rewrite Hsteps.
    unfold M_bind at 1, lift at 1. cbn [Py.iter].
    unfold M_bind at 1. rewrite for_app, Hpre. cbn [for_].
    unfold mbind, M_bind at 1. rewrite Hstep. reflexivity.
Qed.

Lemma unrecognized_step_noop extract_dir step action s :
  Py.getitem step "action" = Ok action →
  Py.eq_str action "load_embeddings" = false →
  Py.eq_str action "register_metadata" = false →
  Py.eq_str action "verify_integrity" = false →
  _execute_install_step rt step extract_dir s = (Ok (), s).
Proof.
  intros Ha H1 H2 H3. unfold _execute_install_step, mbind, M_bind, lift.
  by rewrite Ha, H1, H2, H3.
Qed.

(** C4. A step whose action is none of the three known ones raises
    nothing and changes nothing; the steps around it run as if it were
    not listed, and the install returns [True] when they and the cleanup
    succeed. *)
Theorem unrecognized_action_is_skipped (extract_dir : string)
    (step action : pyval) :
  Py.getitem step "action" = Ok action →
  Py.eq_str action "load_embeddings" = false →
  Py.eq_str action "register_metadata" = false →
  Py.eq_str action "verify_integrity" = false →
  (∀ s, _execute_install_step rt step extract_dir s = (Ok (), s))
  ∧ (∀ pre post s,
       for_ (pre ++ step :: post) (λ st, _execute_install_step rt st extract_dir) s
       = for_ (pre ++ post) (λ st, _execute_install_step rt st extract_dir) s)
  ∧ (∀ manifest pre post s s1 s2 s3,
       Py.getitem manifest "install_steps" = Ok (PList (pre ++ step :: post)) →
       for_ pre (λ st, _execute_install_step rt st extract_dir) s = (Ok (), s1) →
       for_ post (λ st, _execute_install_step rt st extract_dir) s1 = (Ok (), s2) →
       Fs.rmtree extract_dir s2 = (Ok (), s3) →
       run_install_steps rt manifest extract_dir s = (Ok true, s3)).
Proof.
  intros Ha H1 H2 H3.
  assert (Hskip : ∀ s, _execute_install_step rt step extract_dir s = (Ok (), s))
    by (intros s; by eapply unrecognized_step_noop).
  assert (Hloop : ∀ pre post s,
       for_ (pre ++ step :: post) (λ st, _execute_install_step rt st extract_dir) s
       = for_ (pre ++ post) (λ st, _execute_install_step rt st extract_dir) s).
  { intros pre post s. rewrite !for_app.
    destruct (for_ pre _ s) as [[[]|e] s1]; [|done].
    cbn [for_]. unfold mbind, M_bind. by rewrite Hskip. }
  split; [done|]. split; [done|].
  intros manifest pre post s s1 s2 s3 Hsteps Hpre Hpost Hrm.
  unfold run_install_steps, mbind, M_bind at 1, lift at 1. rewrite Hsteps.
  unfold M_bind at 1, lift at 1. cbn [Py.iter].
  unfold M_bind at 1. rewrite Hloop, for_app, Hpre, Hpost.
  unfold M_bind. by rewrite Hrm.
Qed.
End LoaderFacts.

(** ** The scratch directory *)

Lemma is_dir_frame p : frame (Spec.is_dir p).
Proof. by split. Qed.

Lemma is_dir_keeps p : keeps p (Spec.is_dir p).
Proof.
  intros s es es' _ _. exists es'. cbn [fs set_fs]. by rewrite lookup_insert_eq.
Qed.

Lemma is_dir_ignores p q : q ≠ p → ignores q (Spec.is_dir p).
Proof.
  intros Hq s f Hf [es Hes]. exists es. cbn [fs set_fs].
  rewrite Hf; [done|]. congruence.
Qed.


Lemma mkdir_makes_dir p :
  hoare (λ _, True) (Fs.mkdir_exist_ok p) (λ _, Spec.is_dir p) (λ _ _, True).
Proof.
  intros s _. unfold Fs.mkdir_exist_ok, io.
  destruct (faults s) as [|[] plan]; [| done |];
    cbv [mbind M_bind gets modify mret M_ret raise]; cbn [fs set_faults];
    (destruct (fs s !! p) as [[data|es]|] eqn:E; [done| |]);
    first [by exists es | exists ∅; cbn [fs set_fs]; by rewrite lookup_insert_eq].
Qed.

Lemma rmtree_removes p :
  hoare (Spec.is_dir p) (Fs.rmtree p) (λ _ s, fs s !! p = None) (λ _, Spec.is_dir p).
Proof.
  intros s [es Hes]. unfold Fs.rmtree, io.
  destruct (faults s) as [|[] plan]; [| by exists es |];
    cbv [mbind M_bind gets modify mret M_ret raise]; cbn [fs set_faults];
    rewrite Hes; cbn [fs set_fs]; by rewrite lookup_delete_eq.
Qed.

Section InstallScratch.
Import Loader.
Context (rt : Runtime).

Lemma run_install_steps_scratch manifest dir :
  hoare (Spec.is_dir dir) (run_install_steps rt manifest dir)
    (λ b s, b = true ∧ fs s !! dir = None) (λ _, Spec.is_dir dir).
Proof.
  pose proof (is_dir_frame dir) as HF.
  unfold run_install_steps.
  eapply hoare_bind; [apply preserves_lift|]. intros ?; cbv beta.
  eapply hoare_bind; [apply preserves_lift|]. intros ?; cbv beta.
  eapply hoare_bind; [apply preserves_for; intros; pres|]. intros ?; cbv beta.
  eapply hoare_bind; [apply rmtree_removes|]. intros ?; cbv beta.
  by apply hoare_ret.
Qed.

Lemma install_module_scratch module_path skill_name :
  hoare (λ _, True) (_install_module rt module_path skill_name)
    (λ b s, if b then fs s !! ("temp_" +:+ skill_name) = None
            else Spec.is_dir ("temp_" +:+ skill_name) s)
    (λ _ _, True).
Proof.
  pose proof (is_dir_frame ("temp_" +:+ skill_name)) as HF.
  pose proof (is_dir_keeps ("temp_" +:+ skill_name)) as HK.
  unfold _install_module.
  eapply hoare_bind; [apply mkdir_makes_dir|]. intros ?; cbv beta.
  eapply hoare_try with (E' := λ _, Spec.is_dir ("temp_" +:+ skill_name)).
  - unfold install_body.
    eapply hoare_bind; [apply preserves_read_archive; pres|]. intros manifest; cbv beta.
    eapply hoare_conseq; [apply run_install_steps_scratch|auto..].
    by intros b s [-> ?].
  - intros e.
    eapply hoare_seq; [apply preserves_print; pres|done|]. intros ?; cbv beta.
    by apply hoare_ret.
Qed.
End InstallScratch.

Lemma length_append (a b : string) :
  String.length (a +:+ b) = (String.length a + String.length b)%nat.
Proof. induction a as [|c a IH]; simpl; [done|by rewrite IH]. Qed.

(** The scratch directory and the archive are different entries. *)
Lemma scratch_is_not_archive (name : string) :
  name +:+ ".mkm" ≠ "temp_" +:+ name.
Proof.
  intros H. apply (f_equal String.length) in H.
  rewrite !length_append in H. simpl in H. lia.
Qed.

Lemma put_file_spec I p data :
  hoare I (Fs.put_file p data) (λ _ s, fs s !! p = Some (File data)) (λ _, I).
Proof.
  intros s Hs. cbv [Fs.put_file mbind M_bind gets modify raise].
  destruct (fs s !! p) as [[old|es]|]; [|done|];
    cbn [fs set_fs]; by rewrite lookup_insert_eq.
Qed.

Section PackagerFrame.
Import Packager.
Context (rt : Runtime) (I : state → Prop) (HI : frame I).

Lemma preserves_dump_json dir name v :
  keeps dir I → preserves I (dump_json rt dir name v).
Proof using HI. intros Hk. unfold dump_json. pres. Qed.
#[local] Hint Resolve preserves_dump_json : pres.

Lemma preserves_tar_open_w p : ignores p I → preserves I (tar_open_w rt p).
Proof using HI. intros Hg. unfold tar_open_w. pres. Qed.
#[local] Hint Resolve preserves_tar_open_w : pres.

Lemma preserves_tar_add p dir members name :
  ignores p I → preserves I (tar_add rt p dir members name).
Proof using HI. intros Hg. unfold tar_add. pres. Qed.
#[local] Hint Resolve preserves_tar_add : pres.

Lemma preserves_tar_add_all p dir names : ∀ members,
  ignores p I → preserves I (tar_add_all rt p dir members names).
Proof using HI.
  induction names as [|name names IH]; intros members Hg; cbn [tar_add_all]; pres.
Qed.
#[local] Hint Resolve preserves_tar_add_all : pres.

Lemma preserves_tar_close p members :
  ignores p I → preserves I (tar_close rt p members).
Proof using HI. intros Hg. unfold tar_close. pres. Qed.
End PackagerFrame.

#[global] Hint Resolve preserves_dump_json preserves_tar_open_w
  preserves_tar_add preserves_tar_add_all preserves_tar_close : pres.

(** Stepping through a sequence whose parts keep one invariant. *)
Ltac keep :=
  cbv zeta; eapply hoare_keep; [solve [pres]|try done|intros ?; cbv beta].

Section PackageScratch.
Import Packager.
Context (rt : Runtime).

Lemma is_dir_ignores_archive name :
  ignores (name +:+ ".mkm") (Spec.is_dir ("temp_" +:+ name)).
Proof. apply is_dir_ignores, scratch_is_not_archive. Qed.

Lemma create_from_memory_scratch entities module_name description s0 :
  hoare (λ s, s = s0) (create_from_memory rt entities module_name description)
    (λ _ s, fs s !! ("temp_" +:+ module_name) = None)
    (λ _ s,
       (∃ e s1, Fs.mkdir_exist_ok ("temp_" +:+ module_name)
                  (add_line ("🎬 Creating knowledge module: " +:+ module_name) s0)
                = (Raise e, s1))
       ∨ Spec.is_dir ("temp_" +:+ module_name) s).
Proof.
  pose proof (is_dir_frame ("temp_" +:+ module_name)) as HF.
  pose proof (is_dir_keeps ("temp_" +:+ module_name)) as HK.
  pose proof (is_dir_ignores_archive module_name) as HG.
  unfold create_from_memory.
  eapply hoare_bind.
  { apply (hoare_modify _ _
      (λ _ s, s = add_line ("🎬 Creating knowledge module: " +:+ module_name) s0)).
    by intros s ->. }
  intros ?; cbv beta.
  eapply hoare_bind with (R := λ _, Spec.is_dir ("temp_" +:+ module_name)).
  { intros s ->.
    pose proof (mkdir_makes_dir ("temp_" +:+ module_name)
      (add_line ("🎬 Creating knowledge module: " +:+ module_name) s0) Logic.I) as H.
    destruct (Fs.mkdir_exist_ok _ _) as [[[]|e] s1]; [done|]. left. eauto. }
  intros ?; cbv beta.
  eapply hoare_conseq with
    (Q' := λ _ s, fs s !! ("temp_" +:+ module_name) = None)
    (E' := λ _, Spec.is_dir ("temp_" +:+ module_name));
    [|done|done|by right].
  do 19 keep.
  eapply hoare_seq; [apply rmtree_removes|done|]. intros ?; cbv beta.
  by apply hoare_ret.
Qed.
End PackageScratch.

(** ** The archive at its destination *)

Section Destination.
Import Packager.
Context (rt : Runtime) (dest : string).

Lemma dest_is_frame v : frame (dest_is dest v).
Proof. by split. Qed.
Lemma dest_open_frame : frame (dest_open rt dest).
Proof. by split. Qed.
Lemma dest_closed_frame : frame (dest_closed rt dest).
Proof. by split. Qed.

Lemma dest_is_ignores v q : q ≠ dest → ignores q (dest_is dest v).
Proof.
  intros Hq s f Hf H. unfold dest_is in *. cbn [fs set_fs].
  rewrite Hf; [done|congruence].
Qed.
Lemma dest_open_ignores q : q ≠ dest → ignores q (dest_open rt dest).
Proof.
  intros Hq s f Hf [ms H]. exists ms. cbn [fs set_fs].
  rewrite Hf; [done|congruence].
Qed.
Lemma dest_closed_ignores q : q ≠ dest → ignores q (dest_closed rt dest).
Proof.
  intros Hq s f Hf [ms H]. exists ms. cbn [fs set_fs].
  rewrite Hf; [done|congruence].
Qed.

Lemma io_put_file I data (Q : state → Prop) :
  frame I → (∀ s, fs s !! dest = Some (File data) → Q s) →
  hoare I (io (Fs.put_file dest data)) (λ _, Q) (λ _, I).
Proof.
  intros HI HQ. apply hoare_io with (P' := I).
  - intros. by apply frame_faults.
  - done.
  - done.
  - eapply hoare_conseq; [apply (put_file_spec I)|done| |done].
    intros ? s Hs. by apply HQ.
Qed.

Lemma tar_open_w_dest v :
  hoare (dest_is dest v) (tar_open_w rt dest)
    (λ _, dest_open rt dest) (λ _, dest_is dest v).
Proof.
  apply io_put_file; [apply dest_is_frame|]. intros s H. by exists [].
Qed.

Lemma tar_add_dest dir members name :
  preserves (dest_open rt dest) (tar_add rt dest dir members name).
Proof.
  pose proof dest_open_frame as HF. unfold tar_add.
  keep. keep. cbv zeta.
  eapply hoare_seq; [apply io_put_file with (Q := dest_open rt dest); [done|]|done|].
  - intros s Hs. by eexists.
  - intros ?; cbv beta. by apply hoare_ret.
Qed.

Lemma tar_add_all_dest dir names : ∀ members,
  preserves (dest_open rt dest) (tar_add_all rt dest dir members names).
Proof.
  induction names as [|name names IH]; intros members; cbn [tar_add_all].
  - apply preserves_ret.
  - apply preserves_bind; [apply tar_add_dest|intros; apply IH].
Qed.

Lemma tar_close_dest members :
  hoare (dest_open rt dest) (tar_close rt dest members)
    (λ _, dest_closed rt dest) (λ _, dest_open rt dest).
Proof.
  apply io_put_file; [apply dest_open_frame|]. intros s H. by eexists.
Qed.
End Destination.


Section PackageDestination.
Import Packager.
Context (rt : Runtime).

Lemma temp_ne_mkm name : "temp_" +:+ name ≠ name +:+ ".mkm".
Proof. intros H. by apply (scratch_is_not_archive name). Qed.

Lemma create_from_memory_dest entities module_name description v :
  hoare (dest_is (module_name +:+ ".mkm") v)
    (create_from_memory rt entities module_name description)
    (λ path s, path = module_name +:+ ".mkm"
               ∧ dest_closed rt (module_name +:+ ".mkm") s)
    (λ _ s, dest_is (module_name +:+ ".mkm") v s
            ∨ dest_open rt (module_name +:+ ".mkm") s
            ∨ dest_closed rt (module_name +:+ ".mkm") s).
Proof.
  pose proof (temp_ne_mkm module_name) as Hne.
  pose proof (dest_is_frame (module_name +:+ ".mkm") v) as HF1.
  pose proof (dest_open_frame rt (module_name +:+ ".mkm")) as HF2.
  pose proof (dest_closed_frame rt (module_name +:+ ".mkm")) as HF3.
  pose proof (dest_is_ignores (module_name +:+ ".mkm") v _ Hne) as HG1.
  pose proof (dest_closed_ignores rt (module_name +:+ ".mkm") _ Hne) as HG3.
  unfold create_from_memory.
  do 15 (keep; [by left|]).
  eapply hoare_seq; [apply tar_open_w_dest|by left|]. intros ?; cbv beta.
  keep; [intros; right; by left|].
  eapply hoare_seq; [apply tar_add_all_dest|intros; right; by left|].
  intros members; cbv beta.
  eapply hoare_seq; [apply tar_close_dest|intros; right; by left|].
  intros ?; cbv beta.
  do 3 (keep; [intros; right; by right|]).
  by apply hoare_ret.
Qed.
End PackageDestination.

(** ** What the two operations leave alone *)

Section Untouched.
Context (rt : Runtime).

(** Packaging never touches the loader's registry. *)
Lemma packaging_keeps_registry r entities module_name description :
  preserves (registry_is r)
    (Packager.create_from_memory rt entities module_name description).
Proof.
  pose proof (registry_frame r) as HF.
  pose proof (registry_ignores r) as HG.
  unfold Packager.create_from_memory. pres.
Qed.

(** An install changes no entry of the working directory but its
    scratch directory. *)
Lemma install_keeps_other_entries q v module_path skill_name :
  "temp_" +:+ skill_name ≠ q →
  preserves (dest_is q v) (Loader._install_module rt module_path skill_name).
Proof.
  intros Hq.
  pose proof (dest_is_frame q v) as HF.
  pose proof (dest_is_ignores q v _ Hq) as HG.
  pres.
Qed.
End Untouched.

Section Claims.
Context (rt : Runtime).

(** C6. A record is filed under the skill's name only when the install
    returned [True]; whenever [download_skill] returns [False] or raises,
    the registry is what it was. *)
Theorem failed_install_leaves_registry (skill_name : string)
    (source_url : option string) (s : state) :
  match Loader.download_skill rt skill_name source_url s with
  | (Ok true, s') =>
      ∃ t, installed_modules s' =
           <[skill_name := Spec.installed_record (skill_name +:+ ".mkm") t]>
             (installed_modules s)
  | (Ok false, s') | (Raise _, s') =>
      installed_modules s' = installed_modules s
  end.
Proof.
  pose proof (download_skill_registry rt (installed_modules s)
                skill_name source_url s eq_refl) as H.
  by destruct (Loader.download_skill rt skill_name source_url s) as [[[]|e] s'].
Qed.

(** C1, what the code does: the scratch directory is gone when the
    operation succeeds, and is still there when the install returns
    [False] or the packaging raises after having made it. *)
Theorem scratch_dir_survives_failure :
  (∀ module_path skill_name s,
     match Loader._install_module rt module_path skill_name s with
     | (Ok true, s') => fs s' !! ("temp_" +:+ skill_name) = None
     | (Ok false, s') => Spec.is_dir ("temp_" +:+ skill_name) s'
     | (Raise _, _) => True
     end)
  ∧ (∀ entities module_name description s,
       match Fs.mkdir_exist_ok ("temp_" +:+ module_name)
               (add_line ("🎬 Creating knowledge module: " +:+ module_name) s) with
       | (Raise _, _) => True
       | (Ok _, _) =>
           match Packager.create_from_memory rt entities module_name description s with
           | (Ok _, s') => fs s' !! ("temp_" +:+ module_name) = None
           | (Raise _, s') => Spec.is_dir ("temp_" +:+ module_name) s'
           end
       end).
Proof.
  split.
  - intros module_path skill_name s.
    pose proof (install_module_scratch rt module_path skill_name s Logic.I) as H.
    by destruct (Loader._install_module rt module_path skill_name s) as [[[]|e] s'].
  - intros entities module_name description s.
    pose proof (create_from_memory_scratch rt entities module_name description
                  s s eq_refl) as H.
    destruct (Fs.mkdir_exist_ok _ _) as [[[]|e0] s1] eqn:Hmk; [|done].
    destruct (Packager.create_from_memory rt entities module_name description s)
      as [[path|e] s']; [done|].
    destruct H as [(e' & s1' & [=])|H]; done.
Qed.

(** C8, amended. When packaging raises, the destination holds what it
    held before the call, or the archive as far as it was written, or
    the closed archive; when packaging returns, it holds the closed
    archive. *)
Theorem failed_packaging_destination (entities : list pyval)
    (module_name description : string) (s : state) :
  match Packager.create_from_memory rt entities module_name description s with
  | (Ok path, s') =>
      path = module_name +:+ ".mkm"
      ∧ ∃ members,
          fs s' !! (module_name +:+ ".mkm") = Some (File (targz_final rt members))
  | (Raise _, s') =>
      fs s' !! (module_name +:+ ".mkm") = fs s !! (module_name +:+ ".mkm")
      ∨ (∃ members,
           fs s' !! (module_name +:+ ".mkm") = Some (File (targz_partial rt members)))
      ∨ (∃ members,
           fs s' !! (module_name +:+ ".mkm") = Some (File (targz_final rt members)))
  end.
Proof.
  pose proof (create_from_memory_dest rt entities module_name description
                (fs s !! (module_name +:+ ".mkm")) s eq_refl) as H.
  by destruct (Packager.create_from_memory rt entities module_name description s)
    as [[path|e] s'].
Qed.
End Claims.

(** C8, as stated, fails: when the write of the first member fails, the
    destination holds neither what was there before nor a closed archive,
    but the archive as [tarfile.open] started it. *)
Lemma half_written_archive_is_left :
  ¬ (∀ (rt : Runtime) entities module_name description s e s',
       Packager.create_from_memory rt entities module_name description s
         = (Raise e, s') →
       fs s' !! (module_name +:+ ".mkm") = fs s !! (module_name +:+ ".mkm")
       ∨ ∃ members,
           fs s' !! (module_name +:+ ".mkm") = Some (File (targz_final rt members))).
Proof.
  intros H.
  pose (r := Packager.create_from_memory Demo.rt [Demo.sample] "m" "d"
               Demo.failing_while_adding).
  assert (Hr : r = (Raise OSError, r.2)) by (vm_compute; reflexivity).
  assert (Hd : fs r.2 !! "m.mkm" = Some (File (Demo.b "open:")))
    by (vm_compute; reflexivity).
  destruct (H Demo.rt _ "m" "d" _ _ _ Hr) as [Hsame|[members Hdone]].
  - change ("m" +:+ ".mkm") with "m.mkm" in Hsame. rewrite Hd in Hsame.
    vm_compute in Hsame. discriminate.
  - change ("m" +:+ ".mkm") with "m.mkm" in Hdone. rewrite Hd in Hdone.
    simpl in Hdone. discriminate.
Qed.

(** ** The theorems at concrete inputs *)

Lemma encoder_chunk_ids_witness :
  forallb Spec.is_entity [Demo.sample; Demo.nameless] = true
  ∧ ∃ (ed : Packager.embeddings) (M : nat),
      Packager._create_embeddings_data [Demo.sample; Demo.nameless] = Ok ed
      ∧ Packager.total_observations [Demo.sample; Demo.nameless] = Ok (Z.of_nat M)
      ∧ length (Packager.chunks ed) = M
      ∧ length (Packager.metadata ed) = M.
Proof.
  split; [reflexivity|].
  destruct (encoder_chunk_ids [Demo.sample; Demo.nameless] eq_refl)
    as (ed & M & H1 & H2 & H3 & H4 & _).
  exists ed, M. auto.
Defined.


Lemma encoder_total_on_missing_fields_witness :
  forallb Spec.is_entity [Demo.nameless; Demo.sample] = true
  ∧ (∃ skills, Packager._extract_skills [Demo.nameless; Demo.sample] = Ok skills)
  ∧ ∃ ed : Packager.embeddings,
      Packager._create_embeddings_data [Demo.nameless; Demo.sample] = Ok ed
      ∧ Packager.entity_map ed = Spec.entity_map [Demo.nameless; Demo.sample].
Proof.
  split; [reflexivity|].
  destruct (encoder_total_on_missing_fields [Demo.nameless; Demo.sample] eq_refl)
    as (H1 & ed & H2 & _ & _ & H3 & _).
  split; [done|]. exists ed. auto.
Defined.

Lemma verification_always_succeeds_witness :
  fs (Demo.with_archive "ARCHIVE") !! "m.mkm" = Some (File (Demo.b "ARCHIVE"))
  ∧ Spec.quiet (Demo.with_archive "ARCHIVE")
  ∧ ∃ s', Loader._verify_module Demo.rt "m.mkm" (Demo.with_archive "ARCHIVE")
          = (Ok true, s')
      ∧ fs s' = fs (Demo.with_archive "ARCHIVE").
Proof.
  assert (Hq : Spec.quiet (Demo.with_archive "ARCHIVE")) by constructor.
  split; [reflexivity|]. split; [exact Hq|].
  destruct (proj2 (verification_always_succeeds Demo.rt "m.mkm"
                     (Demo.with_archive "ARCHIVE"))
                  (Demo.b "ARCHIVE") eq_refl Hq)
    as (_ & s' & H1 & _ & H2 & _).
  exists s'. auto.
Defined.

Lemma download_skill_raises_without_file_witness :
  Loader.truthy (Some "https://example.org/m.mkm") = true
  ∧ fs (Demo.world [] []) !! ("m" +:+ ".mkm") = None
  ∧ ∃ e s', Loader.download_skill Demo.rt "m" (Some "https://example.org/m.mkm")
              (Demo.world [] []) = (Raise e, s')
      ∧ (faults (Demo.world [] []) = [] → e = FileNotFoundError ("m" +:+ ".mkm")).
Proof.
  split; [reflexivity|]. split; [reflexivity|].
  apply (download_skill_raises_without_file Demo.rt "m"
           (Some "https://example.org/m.mkm") (Demo.world [] []));
    reflexivity.
Defined.

Lemma install_steps_run_in_order_witness :
  Fs.mkdir_exist_ok "temp_m" (Demo.with_archive "ARCHIVE-ABC")
    = (Ok (), Demo.abc_made)
  ∧ Loader.read_archive Demo.rt "m.mkm" "temp_m" Demo.abc_made
    = (Ok Demo.manifest_abc, Demo.abc_read)
  ∧ for_ [Demo.step_load "embeddings.pkl"]
      (λ st, Loader._execute_install_step Demo.rt st "temp_m") Demo.abc_read
    = (Ok (), Demo.abc_after_a)
  ∧ Loader._execute_install_step Demo.rt (Demo.step_load "missing.pkl")
      "temp_m" Demo.abc_after_a
    = (Raise (FileNotFoundError "temp_m/missing.pkl"), Demo.abc_after_b)
  ∧ Loader._install_module Demo.rt "m.mkm" "m" (Demo.with_archive "ARCHIVE-ABC")
    = (Ok false,
       add_line ("❌ Installation error: "
                 +:+ exn_str Demo.rt (FileNotFoundError "temp_m/missing.pkl"))
         Demo.abc_after_b).
Proof.
  repeat (split; [vm_compute; reflexivity|]).
  apply (proj2 (install_steps_run_in_order Demo.rt "temp_m"
                  [Demo.step_load "embeddings.pkl"] [Demo.step_verify]
                  (Demo.step_load "missing.pkl"))
           "m.mkm" "m" Demo.manifest_abc
           (FileNotFoundError "temp_m/missing.pkl")
           (Demo.with_archive "ARCHIVE-ABC")
           Demo.abc_made Demo.abc_read Demo.abc_after_a Demo.abc_after_b);
    vm_compute; reflexivity.
Defined.

Lemma unrecognized_action_is_skipped_witness :
  Py.getitem Demo.step_unknown "action" = Ok (PStr "frobnicate")
  ∧ Loader._execute_install_step Demo.rt Demo.step_unknown "temp_m"
      Demo.unknown_read = (Ok (), Demo.unknown_read)
  ∧ Loader.run_install_steps Demo.rt Demo.manifest_unknown "temp_m"
      Demo.unknown_read = (Ok true, Demo.unknown_cleaned).
Proof.
  split; [reflexivity|].
  destruct (unrecognized_action_is_skipped Demo.rt "temp_m"
              Demo.step_unknown (PStr "frobnicate")
              eq_refl eq_refl eq_refl eq_refl) as (Hstep & _ & Hrun).
  split; [apply Hstep|].
  apply (Hrun Demo.manifest_unknown [Demo.step_load "embeddings.pkl"]
           [Demo.step_verify] Demo.unknown_read Demo.unknown_after_a
           Demo.unknown_after_c Demo.unknown_cleaned);
    vm_compute; reflexivity.
Defined.

(** C1 at a failing input: installing an archive without [manifest.json]
    returns [False], files nothing in the registry and leaves [temp_m]. *)
Example install_without_manifest_leaves_scratch :
  ∃ s', Loader.download_skill Demo.rt "m" None
          (Demo.with_archive "ARCHIVE-NO-MANIFEST") = (Ok false, s')
    ∧ Spec.is_dir "temp_m" s'
    ∧ installed_modules s' = ∅.
Proof.
  eexists. split; [vm_compute; reflexivity|].
  split; [eexists; vm_compute; reflexivity|reflexivity].
Qed.

(** C3 at the A, B, C archive: A has loaded its chunks, C has printed
    nothing, the install has failed. *)
Example step_after_failure_never_runs :
  ∃ s', Loader.download_skill Demo.rt "m" None (Demo.with_archive "ARCHIVE-ABC")
          = (Ok false, s')
    ∧ "  - Loaded 2 knowledge chunks" ∈ stdout s'
    ∧ "✓ Integrity verified" ∉ stdout s'.
Proof.
  eexists. split; [vm_compute; reflexivity|]. cbn [stdout].
  split; [|intros H]; repeat
    match goal with
    | |- _ ∈ _ :: _ => apply elem_of_cons; first [left; reflexivity|right]
    | H : _ ∈ _ :: _ |- _ => apply elem_of_cons in H as [H|H]; [discriminate|]
    | H : _ ∈ [] |- _ => by apply elem_of_nil in H
    end.
Qed.

(** C4 at the archive with an unknown action between A and C: C runs and
    the install succeeds. *)
Example unknown_action_install_succeeds :
  ∃ s', Loader.download_skill Demo.rt "m" None
          (Demo.with_archive "ARCHIVE-UNKNOWN") = (Ok true, s')
    ∧ "✓ Integrity verified" ∈ stdout s'.
Proof.
  eexists. split; [vm_compute; reflexivity|]. cbn [stdout].
  repeat (apply elem_of_cons; first [left; reflexivity|right]).
Qed.

(** C8 at the failing write: [m.mkm] did not exist, packaging raises, and
    [m.mkm] is left as [tarfile.open] started it. *)
Example packaging_failure_leaves_open_archive :
  ∃ s', Packager.create_from_memory Demo.rt [Demo.sample] "m" "d"
          Demo.failing_while_adding = (Raise OSError, s')
    ∧ fs Demo.failing_while_adding !! "m.mkm" = None
    ∧ fs s' !! "m.mkm" = Some (File (targz_partial Demo.rt []))
    ∧ Spec.is_dir "temp_m" s'.
Proof.
  eexists. split; [vm_compute; reflexivity|].
  split; [reflexivity|]. split; [vm_compute; reflexivity|].
  eexists. vm_compute. reflexivity.
Qed.

(** An install that succeeds cleans up and files its record. *)
Example install_succeeds :
  ∃ s', Loader.download_skill Demo.rt "m" None (Demo.with_archive "ARCHIVE")
          = (Ok true, s')
    ∧ fs s' !! "temp_m" = None
    ∧ is_Some (installed_modules s' !! "m").
Proof.
  eexists. split; [vm_compute; reflexivity|].
  split; [vm_compute; reflexivity|eexists; vm_compute; reflexivity].
Qed.

(** ** More on [_extract_skills] *)

Section SkillFacts.
Import Packager.

Lemma extract_skill_ok skills e :
  Props.skill_ok e = true →
  extract_skill skills e =
  Ok (match Spec.entity_skill e with
      | Some tag => {[tag]} ∪ skills
      | None => skills
      end).
Proof.
  destruct e as [| | | | |l|d]; try discriminate.
  unfold Props.skill_ok, Props.recognized, extract_skill, Spec.entity_skill,
    Spec.skill_tag, Spec.field, Spec.slugify.
  cbn [Py.get mbind result_bind].
  destruct (default (PStr "") (Py.lookup d (PStr "entityType"))) as [| | | |t| |];
    cbn [Py.eq_str Spec.text orb negb]; try reflexivity.
  destruct (default (PStr "") (Py.lookup d (PStr "name"))) as [| | | |n| |];
    cbn [Spec.is_str Spec.text Py.lower mbind result_bind];
    repeat (destruct (String.eqb t _); cbn [orb negb]; try discriminate;
            try reflexivity).
Qed.

Lemma extract_skill_bad skills e :
  Props.skill_ok e = false → extract_skill skills e = Raise AttributeError.
Proof.
  destruct e as [| | | | |l|d]; try reflexivity.
  unfold Props.skill_ok, Props.recognized, extract_skill.
  cbn [Py.get mbind result_bind].
  destruct (default (PStr "") (Py.lookup d (PStr "entityType"))) as [| | | |t| |];
    cbn [Py.eq_str orb negb]; try discriminate.
  destruct (default (PStr "") (Py.lookup d (PStr "name"))) as [| | | |n| |];
    cbn [Spec.is_str Py.lower mbind result_bind];
    repeat (destruct (String.eqb t _); cbn [orb negb]; try discriminate;
            try reflexivity).
Qed.

Lemma extract_skills_loop_ok es : ∀ skills,
  forallb Props.skill_ok es = true →
  ∃ skills', for_each extract_skill es skills = Ok skills'
    ∧ ∀ tag, tag ∈ skills' ↔
        tag ∈ skills ∨ ∃ e, e ∈ es ∧ Spec.entity_skill e = Some tag.
Proof.
  induction es as [|e es IH]; intros skills Hes.
  - exists skills. split; [done|]. intros tag. split; [auto|].
    intros [?|(e & He & _)]; [done|]. by apply elem_of_nil in He.
  - cbn [forallb] in Hes. apply andb_true_iff in Hes as [He Hes].
    cbn [for_each]. rewrite extract_skill_ok by done. cbn [mbind result_bind].
    destruct (IH (match Spec.entity_skill e with
                  | Some tag => {[tag]} ∪ skills | None => skills end) Hes)
      as (skills' & Hrun & Hin).
    exists skills'. split; [done|]. intros tag. rewrite Hin. split.
    + intros [Ht|(e' & He' & Htag)].
      * destruct (Spec.entity_skill e) as [t|] eqn:Et; [|auto].
        apply elem_of_union in Ht as [->%elem_of_singleton|?]; [|auto].
        right. exists e. split; [left|done].
      * right. exists e'. split; [by right|done].
    + intros [Ht|(e' & He' & Htag)].
      * left. destruct (Spec.entity_skill e); [apply elem_of_union; by right|done].
      * apply elem_of_cons in He' as [->|He'].
        -- left. rewrite Htag. apply elem_of_union. left. by apply elem_of_singleton.
        -- right. eauto.
Qed.

Lemma extract_skills_loop_bad es : ∀ skills,
  forallb Props.skill_ok es = false →
  for_each extract_skill es skills = Raise AttributeError.
Proof.
  induction es as [|e es IH]; intros skills Hes; [discriminate|].
  cbn [forallb] in Hes. cbn [for_each].
  destruct (Props.skill_ok e) eqn:He.
  - rewrite extract_skill_ok by done. cbn [mbind result_bind]. by apply IH.
  - by rewrite extract_skill_bad.
Qed.

(** X1. [_extract_skills] raises exactly when some entity is not a dict or
    has one of the three known types and a name that is not a string;
    the error is then [AttributeError]. *)
Theorem extract_skills_raises_exactly (entities : list pyval) :
  if forallb Props.skill_ok entities
  then ∃ skills, _extract_skills entities = Ok skills
  else _extract_skills entities = Raise AttributeError.
Proof.
  unfold _extract_skills. destruct (forallb Props.skill_ok entities) eqn:H.
  - destruct (extract_skills_loop_ok entities ∅ H) as (set & -> & _). eauto.
  - by rewrite extract_skills_loop_bad.
Qed.

Lemma extract_skills_returned es l :
  _extract_skills es = Ok l → forallb Props.skill_ok es = true.
Proof.
  unfold _extract_skills. destruct (forallb Props.skill_ok es) eqn:H; [done|].
  by rewrite extract_skills_loop_bad.
Qed.

Lemma extract_skills_returns es :
  forallb Props.skill_ok es = true → ∃ l, _extract_skills es = Ok l.
Proof.
  intros H. unfold _extract_skills.
  destruct (extract_skills_loop_ok es ∅ H) as (set & -> & _). eauto.
Qed.

Lemma extract_skills_tags es l :
  _extract_skills es = Ok l →
  NoDup l ∧ ∀ tag, tag ∈ l ↔ ∃ e, e ∈ es ∧ Spec.entity_skill e = Some tag.
Proof.
  intros Hrun. pose proof (extract_skills_returned es l Hrun) as H.
  unfold _extract_skills in Hrun.
  destruct (extract_skills_loop_ok es ∅ H) as (set & Hset & Hin).
  rewrite Hset in Hrun. injection Hrun as <-.
  split; [apply NoDup_elements|]. intros tag.
  rewrite elem_of_elements, Hin. split; [|auto].
  intros [Hb|Hb]; [|done]. by apply elem_of_empty in Hb.
Qed.

(** X2. The skills do not depend on the order of the entities, nor on
    how often an entity is listed: when [_extract_skills] returns on a
    list, it returns the same tags, each once, on every list with the
    same members. *)
Theorem extract_skills_order_independent (es es' : list pyval) (l : list string) :
  (∀ e, e ∈ es ↔ e ∈ es') →
  _extract_skills es = Ok l →
  ∃ l', _extract_skills es' = Ok l' ∧ l ≡ₚ l'.
Proof.
  intros Hsame Hrun.
  pose proof (extract_skills_returned es l Hrun) as H.
  assert (H' : forallb Props.skill_ok es' = true).
  { apply forallb_forall. intros e He%list_elem_of_In%Hsame%list_elem_of_In.
    by eapply forallb_forall in H. }
  destruct (extract_skills_returns es' H') as [l' Hrun'].
  exists l'. split; [done|].
  destruct (extract_skills_tags es l Hrun) as [Hnd Hin].
  destruct (extract_skills_tags es' l' Hrun') as [Hnd' Hin'].
  apply NoDup_Permutation; [done..|].
  intros tag. rewrite Hin, Hin'. split; intros (e & He & Ht); exists e;
    (split; [by apply Hsame|done]).
Qed.
End SkillFacts.

Section TagShape.
Import Packager.

Lemma lower_char_idem c : Py.lower_char (Py.lower_char c) = Py.lower_char c.
Proof. destruct c as [[] [] [] [] [] [] [] []]; reflexivity. Qed.

Lemma lower_str_idem s : Py.lower_str (Py.lower_str s) = Py.lower_str s.
Proof.
  induction s as [|c s IH]; [done|]. cbn [Py.lower_str].
  by rewrite lower_char_idem, IH.
Qed.

Lemma lower_str_app a b :
  Py.lower_str (a +:+ b) = Py.lower_str a +:+ Py.lower_str b.
Proof. induction a as [|c a IH]; [done|]. simpl. rewrite IH. reflexivity. Qed.

Lemma replace_app a b :
  Py.replace " " "_" (a +:+ b) = Py.replace " " "_" a +:+ Py.replace " " "_" b.
Proof. induction a as [|c a IH]; [done|]. simpl. rewrite IH. reflexivity. Qed.

Lemma replace_idem s :
  Py.replace " " "_" (Py.replace " " "_" s) = Py.replace " " "_" s.
Proof.
  induction s as [|c s IH]; [done|]. cbn [Py.replace]. rewrite IH. f_equal.
  destruct c as [[] [] [] [] [] [] [] []]; reflexivity.
Qed.

Lemma lower_replace_lower s :
  Py.lower_str (Py.replace " " "_" (Py.lower_str s))
  = Py.replace " " "_" (Py.lower_str s).
Proof.
  induction s as [|c s IH]; [done|]. cbn [Py.replace Py.lower_str].
  rewrite IH. f_equal.
  destruct c as [[] [] [] [] [] [] [] []]; reflexivity.
Qed.

Lemma skill_tag_shape t n tag :
  Spec.skill_tag t n = Some tag →
  Props.no_capital tag
  ∧ (Props.no_space tag ∨ ∃ rest, tag = "tool_" +:+ rest).
Proof.
  unfold Spec.skill_tag, Spec.slugify, Props.no_capital, Props.no_space.
  repeat case_match; intros [= <-].
  - split; [|left].
    + by rewrite lower_str_app, lower_replace_lower.
    + by rewrite replace_app, replace_idem.
  - split; [|right; eauto]. by rewrite lower_str_app, lower_str_idem.
  - split; [|left].
    + by rewrite lower_str_app, lower_replace_lower.
    + by rewrite replace_app, replace_idem.
Qed.


(** A [tool_] tag does keep the spaces of the name. *)
Lemma tool_tag_keeps_spaces :
  _extract_skills
    [PDict [(PStr "name", PStr "My Tool");
            (PStr "entityType", PStr "Tool_Reference")]]
  = Ok ["tool_my tool"].
Proof. reflexivity. Qed.
End TagShape.

(** ** More on [_create_embeddings_data] *)

Section EncoderFacts.
Import Packager.

Lemma for_each_inv {A S} (P : S → Prop) (body : S → A → result S) xs :
  (∀ acc x acc', P acc → body acc x = Ok acc' → P acc') →
  ∀ acc acc', P acc → for_each body xs acc = Ok acc' → P acc'.
Proof.
  intros Hbody. induction xs as [|x xs IH]; intros acc acc' Hacc; cbn [for_each].
  - by intros [= <-].
  - destruct (body acc x) as [acc1|e] eqn:E; cbn [mbind result_bind]; [|done].
    apply IH. by eapply Hbody.
Qed.

Lemma add_chunk_inv name type acc obs acc' :
  Props.encoder_inv acc → add_chunk name type acc obs = Ok acc' →
  Props.encoder_inv acc'.
Proof.
  destruct acc as [ed k]. intros (Hk & Hlen & Hmir). simpl in Hk, Hlen, Hmir.
  unfold add_chunk. destruct (Py.len obs) as [n|e] eqn:Hn; cbn [mbind result_bind]; [|done].
  intros [= <-]. unfold Props.encoder_inv. cbn [fst snd chunks metadata].
  rewrite !length_app. cbn [length]. split; [lia|]. split; [lia|].
  intros i c Hc. apply lookup_app_Some in Hc as [Hc|[Hi Hc]].
  - destruct (Hmir i c Hc) as (m & Hm & Hcm). exists m. split; [|done].
    by apply lookup_app_l_Some.
  - apply list_lookup_singleton_Some in Hc as [Hi0 <-].
    assert (i = length (chunks ed)) as -> by lia.
    eexists. split.
    + rewrite lookup_app_r by lia. rewrite Hlen, Nat.sub_diag. reflexivity.
    + subst k. exists obs, name, type, n. done.
Qed.

Lemma add_entity_inv acc e acc' :
  Props.encoder_inv acc → add_entity acc e = Ok acc' → Props.encoder_inv acc'.
Proof.
  intros Hacc. unfold add_entity.
  destruct (Py.get e "name" _) as [name|]; cbn [mbind result_bind]; [|done].
  destruct (Py.get e "entityType" _) as [type|]; cbn [mbind result_bind]; [|done].
  destruct (Py.get e "observations" _) as [obs|]; cbn [mbind result_bind]; [|done].
  destruct (Py.iter obs) as [items|]; cbn [mbind result_bind]; [|done].
  destruct (for_each (add_chunk name type) items acc) as [[ed k]|] eqn:Hloop;
    cbn [mbind result_bind]; [|done].
  destruct (Py.setitem _ _ _) as [em|]; cbn [mbind result_bind]; [|done].
  intros [= <-].
  by apply (for_each_inv Props.encoder_inv _ items (add_chunk_inv name type)
              acc (ed, k) Hacc) in Hloop.
Qed.

(** X4. On any input on which the encoder returns, also one outside the
    data model, there are as many metadata records as chunks, the i-th
    chunk has id i, and the i-th metadata record is derived from the
    i-th chunk: same id, entity name and type, and [len] of its text. *)
Theorem metadata_mirrors_chunks (entities : list pyval) (ed : embeddings) :
  _create_embeddings_data entities = Ok ed →
  length (metadata ed) = length (chunks ed)
  ∧ ∀ i c, chunks ed !! i = Some c →
      ∃ m, metadata ed !! i = Some m ∧ Props.mirrors i c m.
Proof.
  unfold _create_embeddings_data.
  destruct (for_each add_entity entities _) as [[ed' k]|] eqn:Hloop;
    cbn [mbind result_bind]; [|done].
  intros [= <-].
  apply (for_each_inv Props.encoder_inv _ entities add_entity_inv) in Hloop
    as (_ & Hlen & Hmir); [done|].
  split; [done|]. split; [done|]. intros i c Hc. simpl in Hc. by rewrite lookup_nil in Hc.
Qed.
End EncoderFacts.

Section EntityMap.
Import Packager.

Lemma key_eqb_str a b : Py.key_eqb (PStr a) (PStr b) = true ↔ a = b.
Proof. cbn. apply String.eqb_eq. Qed.

Lemma entity_name_str e :
  Spec.is_entity e = true → ∃ s, Spec.name_or_unknown e = PStr s.
Proof.
  intros (d & -> & Hn & _)%entity_inv.
  unfold Spec.name_or_unknown, Spec.field.
  destruct (Py.lookup d (PStr "name")) as [v|]; cbn; [|eauto].
  cbn in Hn. destruct v; try discriminate. eauto.
Qed.

Lemma lookup_None_keys d k :
  Props.str_keys d → Py.lookup d (PStr k) = None ↔ PStr k ∉ d.*1.
Proof.
  unfold Props.str_keys. induction d as [|[k' v'] d IH]; cbn [fmap list_fmap fst Py.lookup].
  - intros _. split; [|done]. intros _ H. by apply elem_of_nil in H.
  - intros Hk. apply Forall_cons in Hk as [Hk' Hk].
    destruct k' as [| | | |s| |]; try discriminate.
    destruct (Py.key_eqb (PStr s) (PStr k)) eqn:E.
    + apply key_eqb_str in E as ->. split; [done|]. intros H. exfalso.
      apply H. left.
    + rewrite IH by done. rewrite not_elem_of_cons. split; [|tauto].
      intros H. split; [|done]. intros [= ->].
      assert (Py.key_eqb (PStr s) (PStr s) = true) by by apply key_eqb_str.
      congruence.
Qed.

Lemma lookup_Some_keys d k v :
  Props.str_keys d → Py.lookup d (PStr k) = Some v → PStr k ∈ d.*1.
Proof.
  unfold Props.str_keys.
  induction d as [|[k' v'] d IH]; cbn [fmap list_fmap fst Py.lookup]; [done|].
  intros Hk. apply Forall_cons in Hk as [Hk' Hk].
  destruct k' as [| | | |s| |]; try discriminate.
  destruct (Py.key_eqb (PStr s) (PStr k)) eqn:E.
  - apply key_eqb_str in E as ->. intros _. left.
  - intros H. right. by apply IH.
Qed.

Lemma store_keys d k v :
  (Py.store d k v).*1 =
  if Py.lookup d k is Some _ then d.*1 else d.*1 ++ [k].
Proof.
  induction d as [|[k' v'] d IH]; [done|]. cbn [Py.store Py.lookup].
  destruct (Py.key_eqb k' k); [done|]. cbn [fmap list_fmap fst]. rewrite IH.
  by destruct (Py.lookup d k).
Qed.

Lemma store_str_keys d k v :
  Props.str_keys d → Props.str_keys (Py.store d (PStr k) v).
Proof.
  unfold Props.str_keys. intros Hd. rewrite store_keys.
  destruct (Py.lookup d (PStr k)); [done|].
  apply Forall_app. split; [done|]. by repeat constructor.
Qed.

Lemma store_NoDup d k v :
  Props.str_keys d → NoDup (d.*1) → NoDup ((Py.store d (PStr k) v).*1).
Proof.
  intros Hd Hnd. rewrite store_keys.
  destruct (Py.lookup d (PStr k)) eqn:E; [done|].
  apply NoDup_app. split; [done|]. split; [|apply NoDup_singleton].
  intros x Hx ->%list_elem_of_singleton. by apply (lookup_None_keys d k Hd).
Qed.

Lemma lookup_store_ne d k k' v :
  k ≠ k' → Py.lookup (Py.store d (PStr k) v) (PStr k') = Py.lookup d (PStr k').
Proof.
  intros Hne. induction d as [|[k0 v0] d IH]; cbn [Py.store Py.lookup].
  - destruct (Py.key_eqb (PStr k) (PStr k')) eqn:E; [|done].
    by apply key_eqb_str in E.
  - destruct (Py.key_eqb k0 (PStr k)) eqn:E; cbn [Py.lookup].
    + destruct (Py.key_eqb k0 (PStr k')) eqn:E'; [|done].
      destruct k0 as [| | | |s| |]; try discriminate.
      apply key_eqb_str in E as ->. by apply key_eqb_str in E'.
    + destruct (Py.key_eqb k0 (PStr k')); [done|apply IH].
Qed.

Lemma entity_map_fold es : ∀ em,
  forallb Spec.is_entity es = true →
  Props.str_keys em → NoDup (em.*1) →
  let em' := foldl (λ m e, Py.store m (Spec.name_or_unknown e)
                                     (Spec.type_or_unknown e)) em es in
  Props.str_keys em' ∧ NoDup (em'.*1)
  ∧ ∀ k, k ∈ em'.*1 ↔ k ∈ em.*1 ∨ ∃ e, e ∈ es ∧ k = Spec.name_or_unknown e.
Proof.
  induction es as [|e es IH]; intros em Hes Hk Hnd; cbn [foldl].
  - split; [done|]. split; [done|]. intros k. split; [auto|].
    intros [?|(e & He & _)]; [done|]. by apply elem_of_nil in He.
  - cbn [forallb] in Hes. apply andb_true_iff in Hes as [He Hes].
    destruct (entity_name_str e He) as [s Hs]. rewrite Hs.
    destruct (IH (Py.store em (PStr s) (Spec.type_or_unknown e)) Hes
                (store_str_keys _ _ _ Hk) (store_NoDup _ _ _ Hk Hnd))
      as (Hk' & Hnd' & Hin).
    split; [done|]. split; [done|]. intros k. rewrite Hin, store_keys.
    assert (Hmem : k ∈ (if Py.lookup em (PStr s) is Some _
                        then em.*1 else em.*1 ++ [PStr s])
                   ↔ k ∈ em.*1 ∨ k = PStr s).
    { destruct (Py.lookup em (PStr s)) eqn:E.
      - split; [auto|]. intros [?| ->]; [done|].
        by eapply lookup_Some_keys.
      - rewrite elem_of_app, list_elem_of_singleton. done. }
    rewrite Hmem. split.
    + intros [[?| ->]|(e' & He' & ->)]; [by left| |].
      * right. exists e. split; [left|done].
      * right. exists e'. split; [by right|done].
    + intros [?|(e' & He' & ->)]; [by left; left|].
      apply elem_of_cons in He' as [->|He'].
      * left. right. done.
      * right. eauto.
Qed.

Lemma entity_map_last_write post : ∀ em k v,
  forallb Spec.is_entity post = true →
  (∀ e', e' ∈ post → Spec.name_or_unknown e' ≠ PStr k) →
  Py.lookup em (PStr k) = Some v →
  Py.lookup (foldl (λ m e, Py.store m (Spec.name_or_unknown e)
                                      (Spec.type_or_unknown e)) em post)
            (PStr k) = Some v.
Proof.
  induction post as [|e post IH]; intros em k v Hes Hne Hl; cbn [foldl]; [done|].
  cbn [forallb] in Hes. apply andb_true_iff in Hes as [He Hes].
  apply IH; [done|intros e' He'; apply Hne; by right|].
  destruct (entity_name_str e He) as [s Hs]. rewrite Hs.
  rewrite lookup_store_ne; [done|]. intros ->. apply (Hne e); [left|done].
Qed.

(** X5. [entity_map] has exactly the entities' names as keys, none
    twice, and the type under a name is that of the last entity that
    carries the name. *)
Theorem entity_map_last_write_wins (entities : list pyval) :
  forallb Spec.is_entity entities = true →
  ∃ ed : embeddings,
    _create_embeddings_data entities = Ok ed
    ∧ NoDup (entity_map ed).*1
    ∧ (∀ k, k ∈ (entity_map ed).*1 ↔
         ∃ e, e ∈ entities ∧ k = Spec.name_or_unknown e)
    ∧ ∀ pre e post,
        entities = pre ++ e :: post →
        (∀ e', e' ∈ post →
           Spec.name_or_unknown e' ≠ Spec.name_or_unknown e) →
        Py.lookup (entity_map ed) (Spec.name_or_unknown e)
        = Some (Spec.type_or_unknown e).
Proof.
  intros Hes. eexists. split; [by apply create_embeddings_closed_form|].
  cbn [entity_map].
  destruct (entity_map_fold entities [] Hes) as (_ & Hnd & Hin);
    [constructor|constructor|].
  split; [done|]. split.
  - intros k. rewrite (Hin k). split; [|auto].
    intros [H|H]; [|done]. by apply elem_of_nil in H.
  - intros pre e post -> Hlast. unfold Spec.entity_map.
    rewrite foldl_app. cbn [foldl].
    rewrite forallb_app in Hes. apply andb_true_iff in Hes as [_ Hes].
    cbn [forallb] in Hes. apply andb_true_iff in Hes as [He Hpost].
    destruct (entity_name_str e He) as [s Hs]. rewrite Hs in *.
    apply entity_map_last_write; [done|done|].
    apply lookup_store_same. by apply key_eqb_str.
Qed.
End EntityMap.

(** ** What the loader leaves alone *)

Lemma only_printed_frame s : frame (Props.only_printed s).
Proof.
  split; intros s' x (?&?&?&?); repeat split; try done.
  cbn [stdout add_line]. by apply prefix_app_r.
Qed.

Lemma same_but_frame p f : frame (Props.same_but p f).
Proof. by split. Qed.

Lemma same_but_ignores p f : ignores p (Props.same_but p f).
Proof.
  intros s g Hg H q Hq. cbn [fs set_fs]. rewrite Hg; [|done]. by apply H.
Qed.

Lemma same_but2_frame p p' f : frame (Props.same_but2 p p' f).
Proof. by split. Qed.

Lemma same_but2_ignores_l p p' f : ignores p (Props.same_but2 p p' f).
Proof.
  intros s g Hg H q Hq Hq'. cbn [fs set_fs]. rewrite Hg; [|done]. by apply H.
Qed.

Lemma same_but2_ignores_r p p' f : ignores p' (Props.same_but2 p p' f).
Proof.
  intros s g Hg H q Hq Hq'. cbn [fs set_fs]. rewrite Hg; [|done]. by apply H.
Qed.

Lemma preserves_modify I (g : state → state) :
  (∀ s, I s → I (g s)) → preserves I (modify g).
Proof. intros H. by apply hoare_modify. Qed.

Section LoaderUntouched.
Import Loader.
Context (rt : Runtime).


Lemma preserves_download_skill I n url :
  frame I → ignores ("temp_" +:+ n) I →
  (∀ s r, I s → I (set_installed r s)) →
  preserves I (download_skill rt n url).
Proof.
  intros HF HG HR. unfold download_skill. pres.
  apply preserves_modify. auto.
Qed.

Lemma download_skill_scratch n url :
  hoare (λ _, True) (download_skill rt n url)
    (λ b s, b = true → fs s !! ("temp_" +:+ n) = None) (λ _ _, True).
Proof.
  unfold download_skill.
  eapply hoare_seq; [apply (preserves_print (λ _, True)); by split|done|].
  intros ?; cbv beta.
  eapply hoare_seq; [apply (preserves_locate (λ _, True)); by split|done|].
  intros [p|]; cbv beta; [|by apply hoare_ret].
  eapply hoare_seq; [apply (preserves_print (λ _, True)); by split|done|].
  intros ?; cbv beta.
  eapply hoare_seq;
    [apply (preserves_verify_module rt (λ _, True)); by split|done|].
  intros verified; cbv beta.
  destruct (negb verified).
  { eapply hoare_seq; [apply (preserves_print (λ _, True)); by split|done|].
    intros ?; cbv beta. by apply hoare_ret. }
  eapply hoare_seq; [apply (preserves_print (λ _, True)); by split|done|].
  intros ?; cbv beta.
  eapply hoare_seq; [apply install_module_scratch|done|].
  intros [|]; cbv beta.
  - intros s Hs. cbv [mbind M_bind print modify gets mret M_ret]. by intros _.
  - eapply hoare_seq; [apply preserves_print; by split|done|].
    intros ?; cbv beta. by apply hoare_ret.
Qed.

Lemma download_skill_same_but n url s :
  Props.same_but ("temp_" +:+ n) (fs s) (download_skill rt n url s).2.
Proof.
  pose proof (preserves_download_skill (Props.same_but _ (fs s))
                n url (same_but_frame _ _)
                (same_but_ignores _ _) (λ _ _ H, H) s (λ _ _, eq_refl)) as H.
  by destruct (download_skill rt n url s) as [[b|e] s'].
Qed.



(** X20. The registry holds one record per skill name: a second
    successful download of a skill replaces the record of the first
    and leaves the records of the other skills as they were. *)
Theorem repeated_download_replaces_record (skill_name : string)
    (source_url source_url' : option string) (s s1 s2 : state) :
  download_skill rt skill_name source_url s = (Ok true, s1) →
  download_skill rt skill_name source_url' s1 = (Ok true, s2) →
  ∃ t, installed_modules s2 =
       <[skill_name := Spec.installed_record (skill_name +:+ ".mkm") t]>
         (installed_modules s).
Proof.
  intros Hrun1 Hrun2.
  pose proof (download_skill_registry rt (installed_modules s) skill_name
                source_url s eq_refl) as H1.
  pose proof (download_skill_registry rt (installed_modules s1) skill_name
                source_url' s1 eq_refl) as H2.
  rewrite Hrun1 in H1. rewrite Hrun2 in H2.
  destruct H1 as [t1 H1], H2 as [t2 H2]. exists t2.
  by rewrite H2, H1, insert_insert_eq.
Qed.
End LoaderUntouched.

(** ** Where the loader raises and where it does not *)

Section LoaderEdges.
Import Loader.
Context (rt : Runtime).

Lemma print_never_raises {A} (line : string) (k : M A) s :
  (print line;; k) s = k (add_line line s).
Proof. reflexivity. Qed.



Lemma print_keeps I line (E : exn → state → Prop) :
  frame I → hoare I (print line) (λ _ : unit, I) E.
Proof. intros HI. apply hoare_modify. intros. by apply frame_out. Qed.

(** With the archive in place, or a URL given, the archive is looked for
    at [<skill>.mkm] and verification starts. *)
Lemma locate_found I n url (E : exn → state → Prop) :
  frame I →
  (∀ s, I s → truthy url = true ∨ is_Some (fs s !! (n +:+ ".mkm"))) →
  hoare I (locate n url) (λ o s, I s ∧ o = Some (n +:+ ".mkm")) E.
Proof.
  intros HI Hfile s Hs. unfold locate, _download_from_url.
  destruct (truthy url) eqn:Hurl;
    cbv [negb mbind M_bind print modify sleep1 Fs.exists_ gets mret M_ret].
  - split; [|done]. by apply frame_clock, frame_out.
  - destruct (Hfile s Hs) as [[=]|Hsome].
    by rewrite bool_decide_eq_true_2.
Qed.

(** Hashing a regular file can only fail with [OSError]. *)
Lemma calculate_hash_of_file I p :
  frame I → (∀ s, I s → ∃ data, fs s !! p = Some (File data)) →
  hoare I (_calculate_hash rt p) (λ _, I) (λ e s, I s ∧ e = OSError).
Proof.
  intros HI Hfile. unfold _calculate_hash.
  eapply hoare_bind with (R := λ _, I).
  { unfold Fs.open_rb. apply hoare_io with (P' := I);
      [by intros; apply frame_faults|done|done|].
    intros s Hs. destruct (Hfile s Hs) as [data Hdata].
    cbv [mbind M_bind gets mret M_ret]. rewrite Hdata. exact Hs. }
  intros f; cbv beta.
  eapply hoare_bind with (R := λ _, I); [|intros h; by apply hoare_ret].
  generalize (sha256 rt). generalize (S (length f)). intros fuel. revert f.
  induction fuel as [|fuel IH]; intros f h; cbn [hash_blocks].
  - by apply hoare_ret.
  - eapply hoare_bind with (R := λ _, I).
    { unfold Fs.read. apply hoare_io with (P' := I);
        [by intros; apply frame_faults|done|done|].
      by apply hoare_ret. }
    intros [[|b0 block] rest]; cbv beta; [by apply hoare_ret|apply IH].
Qed.

Lemma verify_module_of_file I p :
  frame I → (∀ s, I s → ∃ data, fs s !! p = Some (File data)) →
  hoare I (_verify_module rt p) (λ verified s, I s ∧ verified = true)
    (λ e s, I s ∧ e = OSError).
Proof.
  intros HI Hfile. unfold _verify_module.
  eapply hoare_bind; [by apply calculate_hash_of_file|]. intros h; cbv beta.
  eapply hoare_bind; [by apply print_keeps|]. intros ?; cbv beta.
  by apply hoare_ret.
Qed.

(** X11. When [<skill>.mkm] is a directory, [download_skill] raises, with
    or without a URL: the existence test lets it through and the hashing
    of verification opens it as a file. The file system and the registry
    are as before. *)
Theorem archive_directory_raises (skill_name : string)
    (source_url : option string) (s : state) (es : gmap string bytes) :
  fs s !! (skill_name +:+ ".mkm") = Some (Dir es) →
  ∃ e s', download_skill rt skill_name source_url s = (Raise e, s')
    ∧ (e = IsADirectoryError (skill_name +:+ ".mkm") ∨ e = OSError)
    ∧ fs s' = fs s
    ∧ installed_modules s' = installed_modules s.
Proof.
  intros Hdir.
  set (I := λ s' : state,
         fs s' = fs s ∧ installed_modules s' = installed_modules s).
  assert (HI : frame I) by (by split).
  assert (H : hoare I (download_skill rt skill_name source_url)
                (λ _ _, False)
                (λ e s', (e = IsADirectoryError (skill_name +:+ ".mkm")
                          ∨ e = OSError) ∧ I s')).
  { unfold download_skill.
    eapply hoare_bind; [by apply print_keeps|]. intros ?; cbv beta.
    eapply hoare_bind.
    { apply locate_found; [done|]. intros s' [Hfs _]. right.
      rewrite Hfs, Hdir. eauto. }
    intros o; cbv beta. apply hoare_pure. intros ->.
    eapply hoare_bind; [by apply print_keeps|]. intros ?; cbv beta.
    eapply hoare_bind with (R := λ _ _, False); [|by intros ? ? []].
    unfold _verify_module, _calculate_hash.
    eapply hoare_bind with (R := λ _ _, False); [|by intros ? ? []].
    eapply hoare_bind with (R := λ _ _, False); [|by intros ? ? []].
    unfold Fs.open_rb. apply hoare_io with (P' := I);
      [by intros; apply frame_faults|done|by intros; split; [right|]|].
    intros s' [Hfs Hr]. cbv [mbind M_bind gets raise].
    rewrite Hfs, Hdir. split; [by left|done]. }
  specialize (H s (conj eq_refl eq_refl)).
  destruct (download_skill rt skill_name source_url s) as [[b|e] s'];
    [done|]. destruct H as (He & Hfs & Hr). eauto 10.
Qed.

(** X12. When [temp_<skill>] is a regular file and the archive is in
    place, [download_skill] raises: the scratch directory is made
    outside the [try] of [_install_module]. The file system and the
    registry are as before. *)
Theorem scratch_file_raises (skill_name : string)
    (source_url : option string) (s : state) (data archive : bytes) :
  fs s !! ("temp_" +:+ skill_name) = Some (File data) →
  fs s !! (skill_name +:+ ".mkm") = Some (File archive) →
  ∃ e s', download_skill rt skill_name source_url s = (Raise e, s')
    ∧ (e = FileExistsError ("temp_" +:+ skill_name) ∨ e = OSError)
    ∧ fs s' = fs s
    ∧ installed_modules s' = installed_modules s.
Proof.
  intros Htemp Hfile.
  set (I := λ s' : state,
         fs s' = fs s ∧ installed_modules s' = installed_modules s).
  assert (HI : frame I) by (by split).
  assert (H : hoare I (download_skill rt skill_name source_url)
                (λ _ _, False)
                (λ e s', (e = FileExistsError ("temp_" +:+ skill_name)
                          ∨ e = OSError) ∧ I s')).
  { unfold download_skill.
    eapply hoare_bind; [by apply print_keeps|]. intros ?; cbv beta.
    eapply hoare_bind.
    { apply locate_found; [done|]. intros s' [Hfs _]. right.
      rewrite Hfs, Hfile. eauto. }
    intros o; cbv beta. apply hoare_pure. intros ->.
    eapply hoare_bind; [by apply print_keeps|]. intros ?; cbv beta.
    eapply hoare_seq.
    { apply verify_module_of_file; [done|]. intros s' [Hfs _].
      exists archive. by rewrite Hfs. }
    { intros e s' [Hs' ->]. split; [by right|done]. }
    intros verified; cbv beta. apply hoare_pure. intros ->. cbn [negb].
    eapply hoare_bind; [by apply print_keeps|]. intros ?; cbv beta.
    eapply hoare_bind with (R := λ _ _, False); [|by intros ? ? []].
    unfold _install_module.
    eapply hoare_bind with (R := λ _ _, False); [|by intros ? ? []].
    unfold Fs.mkdir_exist_ok. apply hoare_io with (P' := I);
      [by intros; apply frame_faults|done|by intros; split; [right|]|].
    intros s' [Hfs Hr]. cbv [mbind M_bind gets raise].
    rewrite Hfs, Htemp. split; [by left|done]. }
  specialize (H s (conj eq_refl eq_refl)).
  destruct (download_skill rt skill_name source_url s) as [[b|e] s'];
    [done|]. destruct H as (He & Hfs & Hr). eauto 10.
Qed.
End LoaderEdges.

(** ** Hashing *)

Section HashLaws.
Context (rt : Runtime).

Lemma update_blocks (blocks : list bytes) :
  (∀ h a b, sha256_update rt (sha256_update rt h a) b
            = sha256_update rt h (a ++ b)) →
  (∀ h, sha256_update rt h [] = h) →
  ∀ h, foldl (sha256_update rt) h blocks = sha256_update rt h (concat blocks).
Proof.
  intros Hassoc Hnil. induction blocks as [|b bs IH]; intros h; cbn [foldl concat].
  - by rewrite Hnil.
  - by rewrite IH, Hassoc.
Qed.

(** X13. For a hasher that does not see how its input is cut into
    updates, as SHA-256 does not, the loop over 4096-byte blocks of
    [_calculate_hash] returns the digest of the file's whole content: it
    depends on the bytes only, not on the path or the block size, and
    hashing reads without changing the file system. *)
Theorem hash_is_of_whole_content (file_path : string) (data : bytes)
    (s : state) :
  (∀ h a b, sha256_update rt (sha256_update rt h a) b
            = sha256_update rt h (a ++ b)) →
  (∀ h, sha256_update rt h [] = h) →
  fs s !! file_path = Some (File data) →
  Spec.quiet s →
  ∃ s', _calculate_hash rt file_path s =
        (Ok (sha256_hexdigest rt (sha256_update rt (sha256 rt) data)), s')
    ∧ fs s' = fs s
    ∧ stdout s' = stdout s.
Proof.
  intros Hassoc Hnil Hfile Hq.
  destruct (calculate_hash_quiet rt file_path data s Hfile Hq)
    as (plan & _ & ->).
  exists (set_faults plan s). split; [|done]. unfold Spec.digest.
  rewrite (update_blocks _ Hassoc Hnil), blocks_concat by lia. done.
Qed.
End HashLaws.

(** ** What packaging leaves alone, and where it raises first *)

Section PackagerEdges.
Import Packager.
Context (rt : Runtime).

(** X14. Packaging changes two entries of the working directory at most,
    the scratch directory [temp_<module>] and the archive
    [<module>.mkm], whether it returns or raises. *)
Theorem packaging_keeps_other_entries (entities : list pyval)
    (module_name description q : string) (s : state) :
  q ≠ "temp_" +:+ module_name →
  q ≠ module_name +:+ ".mkm" →
  fs (create_from_memory rt entities module_name description s).2 !! q
  = fs s !! q.
Proof.
  intros Hq Hq'.
  pose proof (same_but2_frame ("temp_" +:+ module_name)
                (module_name +:+ ".mkm") (fs s)) as HF.
  pose proof (same_but2_ignores_l ("temp_" +:+ module_name)
                (module_name +:+ ".mkm") (fs s)) as HG.
  pose proof (same_but2_ignores_r ("temp_" +:+ module_name)
                (module_name +:+ ".mkm") (fs s)) as HG'.
  assert (H : preserves (Props.same_but2 ("temp_" +:+ module_name)
                           (module_name +:+ ".mkm") (fs s))
                (create_from_memory rt entities module_name description)).
  { unfold create_from_memory. pres. }
  specialize (H s (λ _ _ _, eq_refl)).
  destruct (create_from_memory rt entities module_name description s)
    as [[p|e] s']; by apply H.
Qed.

(** X15. When [temp_<module>] is a regular file, packaging raises at its
    first step, the [mkdir], before anything is written: the file system
    is as before and one line has been printed. *)
Theorem packaging_scratch_file_raises (entities : list pyval)
    (module_name description : string) (s : state) (data : bytes) :
  fs s !! ("temp_" +:+ module_name) = Some (File data) →
  ∃ e s', create_from_memory rt entities module_name description s
          = (Raise e, s')
    ∧ (e = FileExistsError ("temp_" +:+ module_name) ∨ e = OSError)
    ∧ fs s' = fs s
    ∧ stdout s' = stdout s ++ ["🎬 Creating knowledge module: " +:+ module_name].
Proof.
  intros Htemp. unfold create_from_memory.
  cbv [mbind M_bind print modify Fs.mkdir_exist_ok io gets raise].
  cbn [faults fs add_line set_faults].
  destruct (faults s) as [|[] plan]; rewrite ?Htemp; eauto 10.
Qed.

Lemma calculate_hash_reads p :
  hoare (λ _, True) (_calculate_hash rt p)
    (λ h s, ∃ data, fs s !! p = Some (File data) ∧ h = Spec.digest rt data)
    (λ _ _, True).
Proof.
  intros s _. pose proof (calculate_hash_digest rt p (fs s) s eq_refl) as H.
  destruct (_calculate_hash rt p s) as [[h|e] s']; [|done].
  destruct H as (-> & data & Hdata & ->). eauto.
Qed.

Lemma rmtree_keeps_file p q data line :
  q ≠ p →
  hoare (λ s, fs s !! q = Some (File data) ∧ last (stdout s) = Some line)
    (Fs.rmtree p)
    (λ _ s, fs s !! q = Some (File data) ∧ last (stdout s) = Some line)
    (λ _ _, True).
Proof.
  intros Hq s [Hfile Hline]. unfold Fs.rmtree, io.
  destruct (faults s) as [|[] plan]; [|done|];
    cbv [mbind M_bind gets modify raise]; cbn [fs set_faults];
    (destruct (fs s !! p) as [[d|es]|]; [done| |done]);
    cbn [fs stdout set_fs set_faults]; by rewrite lookup_delete_ne.
Qed.

(** X21. When packaging returns, the last line it printed shows the
    first 16 characters of the digest of the archive as it is on disk
    at the returned path: the digest is taken after the archive is
    closed, and only the scratch directory is removed after that. *)
Theorem packaging_prints_archive_hash (entities : list pyval)
    (module_name description path : string) (s s' : state) :
  create_from_memory rt entities module_name description s = (Ok path, s') →
  path = module_name +:+ ".mkm"
  ∧ ∃ data,
      fs s' !! path = Some (File data)
      ∧ last (stdout s') =
        Some ("✅ Module created: " +:+ path +:+ " (hash: "
              +:+ prefix16 (Spec.digest rt data) +:+ "...)").
Proof.
  intros Hrun.
  assert (H : hoare (λ _, True)
                (create_from_memory rt entities module_name description)
                (λ p s1, p = module_name +:+ ".mkm"
                   ∧ ∃ data, fs s1 !! p = Some (File data)
                       ∧ last (stdout s1) =
                         Some ("✅ Module created: " +:+ p +:+ " (hash: "
                               +:+ prefix16 (Spec.digest rt data) +:+ "...)"))
                (λ _ _, True)).
  { assert (HF : frame (λ _, True)) by (by split).
    assert (HG : ∀ p, ignores p (λ _ : state, True)) by (by intros p).
    unfold create_from_memory. do 19 keep. cbv zeta.
    eapply hoare_seq; [apply calculate_hash_reads|done|].
    intros h; cbv beta.
    eapply hoare_seq with
      (R := λ _ s1, ∃ data,
              fs s1 !! (module_name +:+ ".mkm") = Some (File data)
              ∧ last (stdout s1) =
                Some ("✅ Module created: " +:+ (module_name +:+ ".mkm")
                      +:+ " (hash: " +:+ prefix16 (Spec.digest rt data)
                      +:+ "...)"))
      (E' := λ _ _, True); [|done|].
    { apply hoare_modify. intros s1 (data & Hdata & ->). exists data.
      split; [done|]. cbn [stdout add_line]. apply last_snoc. }
    intros ?; cbv beta.
    intros s1 (data & Hdata & Hline).
    pose proof (rmtree_keeps_file ("temp_" +:+ module_name)
                  (module_name +:+ ".mkm") data _
                  (scratch_is_not_archive module_name) s1
                  (conj Hdata Hline)) as H.
    unfold mbind, M_bind.
    destruct (Fs.rmtree ("temp_" +:+ module_name) s1) as [[[]|e] s2];
      [|done].
    cbv [mret M_ret]. split; [done|]. exists data. exact H. }
  specialize (H s Logic.I). rewrite Hrun in H. exact H.
Qed.

(** X19. The size estimate looks at the entities one by one and adds up:
    it does not depend on the order they are given in. *)
Theorem estimate_size_order_independent (entities entities' : list pyval) :
  entities ≡ₚ entities' →
  _estimate_size rt entities = _estimate_size rt entities'.
Proof.
  intros Hperm. unfold _estimate_size. f_equal.
  induction Hperm as [|e es es' _ IH|e e' es|es es' es'' _ IH _ IH'];
    cbn [fmap list_fmap Py.sum foldr] in *; unfold Py.sum in *; try lia.
Qed.
End PackagerEdges.

(** ** The codecs of [Codec.rt] read back what they wrote *)

Section CodecFacts.
Import Codec.

Lemma unbits_bits p : unbits (bits p) = p.
Proof. induction p as [p IH|p IH|]; simpl; by rewrite ?IH. Qed.

Lemma of_to_tree : ∀ v, of_tree (to_tree v) = Some v.
Proof.
  fix IH 1. intros [|b|z|[n d]|s|l|d]; try reflexivity.
  - cbn [to_tree of_tree].
    assert (H : mapM of_tree (map to_tree l) = Some l).
    { induction l as [|a l IHl]; [done|]. cbn [map mapM].
      rewrite IH, IHl. done. }
    by rewrite H.
  - cbn [to_tree of_tree].
    match goal with |- PDict <$> mapM ?f _ = _ => set (g := f) end.
    assert (H : mapM g (map (λ '(k, x), GenNode 3 [to_tree k; to_tree x]) d)
                = Some d).
    { induction d as [|[k x] d IHd]; [done|]. cbn [map mapM].
      rewrite IHd. unfold g at 1. rewrite !IH. done. }
    by rewrite H.
Qed.

Lemma loads_dumps v : loads (dumps v) = Some v.
Proof.
  unfold loads, dumps. rewrite unbits_bits, decode_encode. apply of_to_tree.
Qed.

Lemma unpack_pack members : unpack (pack members) = Some members.
Proof.
  unfold unpack, pack. rewrite unbits_bits, decode_encode. cbn [mbind option_bind].
  induction members as [|[name data] ms IH]; [done|]. cbn [map mapM].
  rewrite IH. cbn [fst snd].
  assert (H : mapM Byte.of_N (map Byte.to_N data) = Some data).
  { induction data as [|b0 data IHd]; [done|]. cbn [map mapM].
    rewrite Byte.of_to_N, IHd. done. }
  by rewrite H.
Qed.

Lemma codec_rt_laws : Props.codec_laws Codec.rt.
Proof.
  split; intros; [apply loads_dumps|apply loads_dumps|apply unpack_pack].
Qed.
End CodecFacts.

(** ** Running without faults: the rules *)

Section Yields.
Import Props.
Context {A B : Type}.

Lemma runs_at_faults x s plan :
  Forall (λ b, b = false) plan → runs_at x s → runs_at x (set_faults plan s).
Proof. by intros Hplan [_ <-]. Qed.

Lemma yields_ret (a : A) x : yields (mret a) x a x.
Proof. by intros s Hs. Qed.

Lemma yields_lift (a : A) x : yields (lift (Ok a)) x a x.
Proof. by intros s Hs. Qed.

Lemma yields_bind (m : M A) (f : A → M B) x v x1 w x2 :
  yields m x v x1 → yields (f v) x1 w x2 → yields (m ≫= f) x w x2.
Proof.
  intros Hm Hf. eapply hoare_bind; [exact Hm|].
  intros a s [-> Hs]. by apply Hf.
Qed.

Lemma yields_gets (g : state → A) x :
  (∀ s, g s = g (core s)) → yields (gets g) x (g x) x.
Proof. intros Hg s [Hq <-]. cbv [gets]. by rewrite <- Hg. Qed.

Lemma yields_io (op : M A) x v x' : yields op x v x' → yields (io op) x v x'.
Proof.
  intros Hop s Hs. destruct (io_quiet op s (proj1 Hs)) as (plan & Hplan & ->).
  by apply Hop, runs_at_faults.
Qed.
End Yields.

Section YieldsPrimitives.
Import Props.

Lemma yields_modify (g g' : state → state) x :
  (∀ s, faults (g s) = faults s) → (∀ s, core (g s) = g' (core s)) →
  yields (modify g) x tt (g' x).
Proof.
  intros Hf Hg s [Hq <-]. cbv [modify]. split; [done|]. split; [|done].
  unfold Spec.quiet. by rewrite Hf.
Qed.

Lemma yields_print line x : yields (print line) x tt x.
Proof. by apply (yields_modify _ id). Qed.

Lemma yields_set_fs (h : gmap string node → gmap string node) x :
  yields (modify (λ s, set_fs (h (fs s)) s)) x tt (set_fs (h (fs x)) x).
Proof. by apply (yields_modify _ (λ s, set_fs (h (fs s)) s)). Qed.

Lemma set_fs_id x : set_fs (fs x) x = x.
Proof. by destruct x. Qed.

Lemma yields_mkdir p es x :
  dir_content (fs x !! p) = Some es →
  yields (Fs.mkdir_exist_ok p) x tt (set_fs (<[p := Dir es]> (fs x)) x).
Proof.
  intros Hp. unfold Fs.mkdir_exist_ok. apply yields_io.
  eapply yields_bind; [apply (yields_gets (λ s, fs s !! p)); done|].
  cbv beta. destruct (fs x !! p) as [[data|es']|] eqn:E; simplify_eq/=.
  - rewrite insert_id, set_fs_id by done. apply yields_ret.
  - apply (yields_set_fs (λ f, <[p := Dir ∅]> f)).
Qed.

Lemma yields_listing dir es x :
  fs x !! dir = Some (Dir es) → yields (Fs.listing dir) x es x.
Proof.
  intros Hd. unfold Fs.listing.
  eapply yields_bind; [apply (yields_gets (λ s, fs s !! dir)); done|].
  cbv beta. rewrite Hd. apply yields_ret.
Qed.

Lemma yields_dir_update dir es (g : gmap string bytes → gmap string bytes) x :
  fs x !! dir = Some (Dir es) →
  yields (io (es ← Fs.listing dir;
              modify (λ s, set_fs (<[dir := Dir (g es)]> (fs s)) s)))
    x tt (set_fs (<[dir := Dir (g es)]> (fs x)) x).
Proof.
  intros Hd. apply yields_io.
  eapply yields_bind; [by apply yields_listing|].
  apply (yields_set_fs (λ f, <[dir := Dir (g es)]> f)).
Qed.

Lemma yields_open_w dir name es x :
  fs x !! dir = Some (Dir es) →
  yields (Fs.open_w dir name) x tt
    (set_fs (<[dir := Dir (<[name := []]> es)]> (fs x)) x).
Proof. apply (yields_dir_update dir es (λ es, <[name := []]> es)). Qed.

Lemma yields_write dir name data es x :
  fs x !! dir = Some (Dir es) →
  yields (Fs.write dir name data) x tt
    (set_fs (<[dir := Dir (<[name := data]> es)]> (fs x)) x).
Proof. apply (yields_dir_update dir es (λ es, <[name := data]> es)). Qed.

Lemma set_fs_set_fs f f' x : set_fs f (set_fs f' x) = set_fs f x.
Proof. done. Qed.

(** A file of a directory opened for writing and written. *)
Lemma yields_write_file {A} dir name data es (k : M A) x v x' :
  fs x !! dir = Some (Dir es) →
  yields k (set_fs (<[dir := Dir (<[name := data]> es)]> (fs x)) x) v x' →
  yields (Fs.open_w dir name;; Fs.write dir name data;; k) x v x'.
Proof.
  intros Hd Hk.
  eapply yields_bind; [by apply yields_open_w|].
  eapply yields_bind.
  { apply yields_write. cbn [fs set_fs]. apply lookup_insert_eq. }
  cbn [fs set_fs]. by rewrite set_fs_set_fs, !insert_insert_eq.
Qed.

Lemma yields_open_r dir name data es x :
  fs x !! dir = Some (Dir es) → es !! name = Some data →
  yields (Fs.open_r dir name) x data x.
Proof.
  intros Hd Hn. unfold Fs.open_r. apply yields_io.
  eapply yields_bind; [by apply yields_listing|].
  cbv beta. rewrite Hn. apply yields_ret.
Qed.

Lemma yields_read_all h x : yields (Fs.read_all h) x h x.
Proof. apply yields_io, yields_ret. Qed.

Lemma yields_iterdir dir es x :
  fs x !! dir = Some (Dir es) →
  yields (Fs.iterdir dir) x ((map_to_list es).*1) x.
Proof.
  intros Hd. unfold Fs.iterdir. apply yields_io.
  eapply yields_bind; [by apply yields_listing|]. apply yields_ret.
Qed.

Lemma yields_put_file p data x :
  (∀ es, fs x !! p ≠ Some (Dir es)) →
  yields (io (Fs.put_file p data)) x tt (set_fs (<[p := File data]> (fs x)) x).
Proof.
  intros Hp. apply yields_io. unfold Fs.put_file.
  eapply yields_bind; [apply (yields_gets (λ s, fs s !! p)); done|].
  cbv beta. destruct (fs x !! p) as [[old|es]|] eqn:E;
    [|by destruct (Hp es)|]; apply (yields_set_fs (λ f, <[p := File data]> f)).
Qed.

Lemma yields_rmtree p es x :
  fs x !! p = Some (Dir es) →
  yields (Fs.rmtree p) x tt (set_fs (delete p (fs x)) x).
Proof.
  intros Hp. unfold Fs.rmtree. apply yields_io.
  eapply yields_bind; [apply (yields_gets (λ s, fs s !! p)); done|].
  cbv beta. rewrite Hp. apply (yields_set_fs (λ f, delete p f)).
Qed.

Lemma yields_open_rb p data x :
  fs x !! p = Some (File data) → yields (Fs.open_rb p) x data x.
Proof.
  intros Hp. unfold Fs.open_rb. apply yields_io.
  eapply yields_bind; [apply (yields_gets (λ s, fs s !! p)); done|].
  cbv beta. rewrite Hp. apply yields_ret.
Qed.

Lemma yields_exists p x :
  yields (Fs.exists_ p) x (bool_decide (is_Some (fs x !! p))) x.
Proof. by apply (yields_gets (λ s, bool_decide (is_Some (fs s !! p)))). Qed.

Context (rt : Runtime).

Lemma yields_datetime_now x :
  yields (datetime_now rt) x (isoformat rt (wall x)) x.
Proof. by apply (yields_gets (λ s, isoformat rt (wall s))). Qed.

Lemma yields_calculate_hash p data x :
  fs x !! p = Some (File data) →
  yields (_calculate_hash rt p) x (Spec.digest rt data) x.
Proof.
  intros Hp s [Hq <-].
  destruct (calculate_hash_quiet rt p data s Hp Hq) as (plan & Hplan & ->).
  split; [done|]. by apply runs_at_faults.
Qed.
End YieldsPrimitives.

(** ** A packaging that succeeds *)

(** One step of a run: the rule of the step's head, then the state put in
    normal form. *)
Ltac norm :=
  cbv zeta;
  cbn [fs wall stdout loop_time faults installed_modules set_fs set_installed];
  rewrite ?insert_insert_eq.
Tactic Notation "run" uconstr(rule) :=
  eapply yields_bind; [norm; apply rule|]; norm.
Tactic Notation "run_by" tactic3(rule) :=
  eapply yields_bind; [norm; rule|]; norm.

Section PackagingRun.
Import Props Packager.
Context (rt : Runtime).

Lemma yields_ret_eq {A} (a : A) x x' : x = x' → yields (mret a) x a x'.
Proof. intros <-. apply yields_ret. Qed.

Lemma memory_entities_spec es :
  forallb Spec.is_entity es = true →
  memory_entities es = Ok (Spec.name_or_unknown <$> es).
Proof.
  induction es as [|e es IH]; [done|]. cbn [forallb].
  intros [He Hes]%andb_true_iff.
  apply entity_inv in He as (d & -> & _). cbn [memory_entities Py.get].
  cbn [mbind result_bind]. by rewrite IH.
Qed.

Lemma yields_dump_json dir name v es x :
  fs x !! dir = Some (Dir es) →
  yields (dump_json rt dir name v) x tt
    (set_fs (<[dir := Dir (<[name := json_dumps rt v]> es)]> (fs x)) x).
Proof.
  intros Hd. unfold dump_json.
  eapply yields_bind; [by apply yields_open_w|].
  replace (set_fs (<[dir := Dir (<[name := json_dumps rt v]> es)]> (fs x)) x)
    with (set_fs (<[dir := Dir (<[name := json_dumps rt v]> (<[name := []]> es))]>
                    (fs (set_fs (<[dir := Dir (<[name := []]> es)]> (fs x)) x)))
            (set_fs (<[dir := Dir (<[name := []]> es)]> (fs x)) x)).
  - apply yields_write. cbn [fs set_fs]. apply lookup_insert_eq.
  - cbn [fs set_fs]. by rewrite set_fs_set_fs, !insert_insert_eq.
Qed.

Lemma yields_tar_add p dir members name data es x :
  (∀ es', fs x !! p ≠ Some (Dir es')) →
  fs x !! dir = Some (Dir es) → es !! name = Some data →
  yields (tar_add rt p dir members name) x (members ++ [(name, data)])
    (set_fs (<[p := File (targz_partial rt (members ++ [(name, data)]))]>
               (fs x)) x).
Proof.
  intros Hp Hd Hn. unfold tar_add.
  eapply yields_bind; [by eapply yields_open_r|].
  eapply yields_bind; [apply yields_read_all|]. cbv zeta.
  eapply yields_bind; [|apply yields_ret].
  by apply yields_put_file.
Qed.

Lemma yields_tar_add_all p dir es l : ∀ members x,
  p ≠ dir → fs x !! dir = Some (Dir es) →
  (∀ name data, (name, data) ∈ l → es !! name = Some data) →
  fs x !! p = Some (File (targz_partial rt members)) →
  yields (tar_add_all rt p dir members l.*1) x (members ++ l)
    (set_fs (<[p := File (targz_partial rt (members ++ l))]> (fs x)) x).
Proof.
  induction l as [|[name data] l IH]; intros members x Hp Hd Hl Hf.
  - cbn [fmap list_fmap tar_add_all]. rewrite app_nil_r.
    rewrite insert_id, set_fs_id by done. apply yields_ret.
  - cbn [fmap list_fmap tar_add_all fst].
    eapply yields_bind.
    { eapply yields_tar_add; [|exact Hd|apply Hl; left].
      intros es' H. congruence. }
    replace (members ++ (name, data) :: l)
      with ((members ++ [(name, data)]) ++ l) by by rewrite <- app_assoc.
    eapply (eq_rect _ (yields _ _ _)); [apply IH|].
    + done.
    + cbn [fs set_fs]. by rewrite lookup_insert_ne.
    + intros n d H. apply Hl. by right.
    + cbn [fs set_fs]. apply lookup_insert_eq.
    + cbn [fs set_fs]. by rewrite set_fs_set_fs, insert_insert_eq.
Qed.

Lemma yields_tar_open_w p x :
  (∀ es, fs x !! p ≠ Some (Dir es)) →
  yields (tar_open_w rt p) x tt
    (set_fs (<[p := File (targz_partial rt [])]> (fs x)) x).
Proof. apply yields_put_file. Qed.

Lemma yields_tar_close p members x :
  (∀ es, fs x !! p ≠ Some (Dir es)) →
  yields (tar_close rt p members) x tt
    (set_fs (<[p := File (targz_final rt members)]> (fs x)) x).
Proof. apply yields_put_file. Qed.

Lemma create_from_memory_yields entities module_name description x stale
    skills :
  forallb Spec.is_entity entities = true →
  _extract_skills entities = Ok skills →
  dir_content (fs x !! ("temp_" +:+ module_name)) = Some stale →
  (∀ es, fs x !! (module_name +:+ ".mkm") ≠ Some (Dir es)) →
  yields (create_from_memory rt entities module_name description) x
    (module_name +:+ ".mkm")
    (set_fs
       (<[module_name +:+ ".mkm" :=
            File (targz_final rt (map_to_list
              (module_files rt
                 (metadata_record rt entities module_name description
                    (isoformat rt (wall x)) skills)
                 (Embeddings (imap Spec.chunk (Spec.traversal entities))
                    (imap Spec.chunk_metadata (Spec.traversal entities))
                    (Spec.entity_map entities))
                 (sources_record entities (isoformat rt (wall x)))
                 stale)))]>
          (delete ("temp_" +:+ module_name) (fs x))) x).
Proof.
  intros Hes Hskills Htemp Hmkm.
  pose proof (temp_ne_mkm module_name) as Hne.
  destruct x as [f o w t pl r]. cbn [fs wall set_fs] in *.
  unfold create_from_memory.
  run yields_print.
  run_by (by apply yields_mkdir).
  run yields_datetime_now.
  rewrite Hskills. run yields_lift.
  run_by (apply yields_dump_json; norm; apply lookup_insert_eq).
  run yields_print.
  rewrite create_embeddings_closed_form by done. run yields_lift.
  eapply yields_write_file; [norm; apply lookup_insert_eq|]. norm.
  rewrite memory_entities_spec by done. run yields_lift.
  run yields_datetime_now.
  rewrite total_observations_spec by done. run yields_lift.
  run_by (apply yields_dump_json; norm; apply lookup_insert_eq).
  run_by (apply yields_dump_json; norm; apply lookup_insert_eq).
  run yields_print.
  run_by (apply yields_tar_open_w; intros es; norm;
          rewrite lookup_insert_ne by done; apply Hmkm).
  run_by (eapply yields_iterdir; norm;
          rewrite lookup_insert_ne by done; apply lookup_insert_eq).
  eapply yields_bind.
  { eapply (yields_tar_add_all _ _ _ (map_to_list _) []); norm.
    - done.
    - rewrite lookup_insert_ne by done. apply lookup_insert_eq.
    - intros name data H. by apply elem_of_map_to_list.
    - apply lookup_insert_eq. }
  norm. cbn [app].
  run_by (apply yields_tar_close; intros es; norm;
          by rewrite lookup_insert_eq).
  run_by (apply yields_calculate_hash; norm; apply lookup_insert_eq).
  run yields_print.
  run_by (eapply yields_rmtree; norm;
          rewrite lookup_insert_ne by done; apply lookup_insert_eq).
  apply yields_ret_eq. norm.
  unfold module_files, metadata_record, sources_record.
  rewrite delete_insert_ne by done. by rewrite delete_insert_eq.
Qed.
End PackagingRun.

(** ** Installing what the packager made *)

Section InstallRun.
Import Props Loader.
Context (rt : Runtime) (laws : codec_laws rt).

Lemma yields_try {A} (body : M A) handler x v x' :
  yields body x v x' → yields (try_except body handler) x v x'.
Proof.
  intros Hb s Hs. specialize (Hb s Hs). unfold try_except.
  by destruct (body s) as [[a|e] s'].
Qed.

Lemma yields_tar_open_r p members x :
  NoDup members.*1 →
  fs x !! p = Some (File (targz_final rt members)) →
  yields (tar_open_r rt p) x members x.
Proof.
  intros Hnd Hp. unfold tar_open_r.
  eapply yields_bind; [by apply yields_open_rb|]. cbv beta.
  rewrite (targz_round_trip rt laws) by done. apply yields_ret.
Qed.

Lemma yields_extractall dir members es x :
  fs x !! dir = Some (Dir es) →
  yields (extractall dir members) x tt
    (set_fs (<[dir := Dir (list_to_map (reverse members) ∪ es)]> (fs x)) x).
Proof.
  intros Hd. unfold extractall. apply yields_io.
  eapply yields_bind; [by apply yields_listing|]. cbv zeta.
  apply (yields_set_fs
           (λ f, <[dir := Dir (list_to_map (reverse members) ∪ es)]> f)).
Qed.

Lemma yields_load_json dir name v es x :
  jsonable v = true →
  fs x !! dir = Some (Dir es) → es !! name = Some (json_dumps rt v) →
  yields (load_json rt dir name) x v x.
Proof.
  intros Hv Hd Hn. unfold load_json.
  eapply yields_bind; [by eapply yields_open_r|].
  eapply yields_bind; [apply yields_read_all|].
  unfold json_load. rewrite (json_round_trip rt laws) by done.
  apply yields_lift.
Qed.

Lemma unpack_directory (es : gmap string bytes) :
  list_to_map (reverse (map_to_list es)) ∪ (∅ : gmap string bytes) = es.
Proof.
  rewrite (right_id_L ∅ (∪)).
  rewrite <- (list_to_map_to_list es) at 2.
  apply list_to_map_proper; [|apply reverse_Permutation].
  rewrite fmap_reverse, reverse_Permutation. apply NoDup_fst_map_to_list.
Qed.

Lemma join_strs_ok sep (l : list string) :
  ∃ joined, Py.join_strs sep (PStr <$> l) = Ok joined.
Proof.
  induction l as [|a l [j IH]]; [by eexists|]. cbn [fmap list_fmap Py.join_strs].
  destruct l as [|b l]; [by eexists|].
  change (PStr <$> b :: l) with (PStr b :: (PStr <$> l)) in *.
  cbv beta iota. rewrite IH. by eexists.
Qed.

Lemma jsonable_strs (l : list string) : forallb jsonable (PStr <$> l) = true.
Proof. by induction l. Qed.

Lemma download_packaged_yields entities module_name description created
    skills ed sources stale x :
  fs x !! (module_name +:+ ".mkm") =
    Some (File (targz_final rt (map_to_list
      (module_files rt
         (metadata_record rt entities module_name description created skills)
         ed sources stale)))) →
  fs x !! ("temp_" +:+ module_name) = None →
  yields (download_skill rt module_name None) x true
    (set_installed
       (<[module_name :=
            Spec.installed_record (module_name +:+ ".mkm") (loop_time x)]>
          (installed_modules x)) x).
Proof.
  intros Hmkm Htemp.
  pose proof (temp_ne_mkm module_name) as Hne.
  destruct (join_strs_ok ", " skills) as [joined Hjoin].
  destruct x as [f o w t pl r]. cbn [fs loop_time installed_modules] in *.
  unfold download_skill, locate. cbn [truthy negb].
  run yields_print.
  eapply yields_bind.
  { run yields_exists. rewrite Hmkm.
    rewrite bool_decide_eq_true_2 by eauto. cbn [negb]. apply yields_ret. }
  cbv beta iota.
  run yields_print.
  eapply yields_bind.
  { unfold _verify_module.
    run_by (by apply yields_calculate_hash).
    run yields_print. apply yields_ret. }
  cbn [negb].
  run yields_print.
  eapply yields_bind.
  { unfold _install_module.
    run_by (apply yields_mkdir; norm; by rewrite Htemp).
    apply yields_try. unfold install_body.
    eapply yields_bind.
    { unfold read_archive.
      run_by (apply yields_tar_open_r;
              [apply NoDup_fst_map_to_list
              |norm; by rewrite lookup_insert_ne]).
      run_by (eapply yields_extractall; norm; apply lookup_insert_eq).
      rewrite unpack_directory.
      run_by (eapply (yields_load_json _ _ Packager.manifest);
              [reflexivity|norm; apply lookup_insert_eq
              |apply lookup_insert_eq]).
      run_by (eapply (yields_load_json _ _
                        (metadata_record rt entities module_name
                           description created skills));
              [cbn; by rewrite jsonable_strs
              |norm; apply lookup_insert_eq
              |unfold module_files;
               rewrite !lookup_insert_ne by done; apply lookup_insert_eq]).
      unfold metadata_record at 1. cbn [Py.getitem Py.lookup Py.key_eqb String.eqb Ascii.eqb Bool.eqb].
      run yields_lift. cbn [str]. run yields_print.
      unfold metadata_record at 1. cbn [Py.getitem Py.lookup Py.key_eqb String.eqb Ascii.eqb Bool.eqb].
      run yields_lift. cbn [str]. run yields_print.
      unfold metadata_record at 1. cbn [Py.getitem Py.lookup Py.key_eqb String.eqb Ascii.eqb Bool.eqb].
      run yields_lift.
      unfold Py.join. cbn [Py.iter mbind result_bind]. rewrite Hjoin.
      run yields_lift. run yields_print. apply yields_ret. }
    unfold run_install_steps. cbn [Packager.manifest Py.getitem Py.lookup Py.key_eqb String.eqb Ascii.eqb Bool.eqb].
    run yields_lift. cbn [Py.iter]. run yields_lift.
    eapply yields_bind.
    { cbn [for_].
      eapply yields_bind.
      { unfold _execute_install_step.
        cbn [Py.getitem Py.lookup Py.key_eqb String.eqb Ascii.eqb Bool.eqb Py.eq_str].
        run yields_lift. cbn [Py.eq_str String.eqb Ascii.eqb Bool.eqb].
        run yields_print. run yields_lift. cbn [path_name]. run yields_lift.
        run_by (eapply yields_open_r;
                [norm; apply lookup_insert_eq
                |unfold module_files;
                 rewrite !lookup_insert_ne by done; apply lookup_insert_eq]).
        run yields_read_all.
        unfold unpickle. rewrite (pickle_round_trip rt laws).
        run yields_lift.
        cbn [Packager.embeddings_dict Py.getitem Py.lookup Py.key_eqb String.eqb Ascii.eqb Bool.eqb].
        run yields_lift. cbn [Py.len]. run yields_lift.
        apply yields_print. }
      eapply yields_bind.
      { unfold _execute_install_step.
        cbn [Py.getitem Py.lookup Py.key_eqb String.eqb Ascii.eqb Bool.eqb Py.eq_str].
        run yields_lift. cbn [Py.eq_str String.eqb Ascii.eqb Bool.eqb].
        apply yields_print. }
      eapply yields_bind.
      { unfold _execute_install_step.
        cbn [Py.getitem Py.lookup Py.key_eqb String.eqb Ascii.eqb Bool.eqb Py.eq_str].
        run yields_lift. cbn [Py.eq_str String.eqb Ascii.eqb Bool.eqb].
        apply yields_print. }
      apply yields_ret. }
    run_by (eapply yields_rmtree; norm; apply lookup_insert_eq).
    apply yields_ret. }
  cbv beta iota.
  run yields_print.
  run_by (apply (yields_gets loop_time); done).
  eapply yields_bind.
  { apply (yields_modify _ (λ s, set_installed
             (<[module_name := PDict [(PStr "path", PStr (module_name +:+ ".mkm"));
                                      (PStr "installed_at", PFloat t)]]>
                (installed_modules s)) s)); done. }
  apply yields_ret_eq. norm. unfold Spec.installed_record.
  rewrite delete_insert_eq, delete_id by done. done.
Qed.
End InstallRun.

Section PackagingOutcome.
Import Props Packager.
Context (rt : Runtime).

Lemma runs_at_core s : Spec.quiet s → runs_at (core s) s.
Proof. by split. Qed.


(** X17. Packaging validates nothing before it starts writing: an entity
    that is not a dict, or whose name is not a string though its type is
    one of the three that yield a skill, makes [create_from_memory]
    raise [AttributeError] when the scratch directory has already been
    made. No file has been written to it and the archive is not
    touched. *)
Theorem malformed_entity_aborts_packaging (entities : list pyval)
    (module_name description : string) (s : state)
    (stale : gmap string bytes) :
  Spec.quiet s →
  forallb skill_ok entities = false →
  dir_content (fs s !! ("temp_" +:+ module_name)) = Some stale →
  ∃ s', create_from_memory rt entities module_name description s
        = (Raise AttributeError, s')
    ∧ fs s' = <["temp_" +:+ module_name := Dir stale]> (fs s).
Proof.
  intros Hq Hes Htemp.
  assert (H : hoare (runs_at (core s))
                (create_from_memory rt entities module_name description)
                (λ _ _, False)
                (λ e s', e = AttributeError
                         ∧ fs s' = <["temp_" +:+ module_name := Dir stale]> (fs s))).
  { unfold create_from_memory.
    eapply hoare_seq; [apply yields_print|done|]. intros ? s1 [_ H1]; revert s1 H1.
    eapply hoare_seq; [by apply yields_mkdir|done|]. intros ? s1 [_ H1]; revert s1 H1.
    eapply hoare_seq; [apply yields_datetime_now|done|]. intros ? s1 [_ H1]; revert s1 H1.
    unfold _extract_skills. rewrite extract_skills_loop_bad by done.
    intros s1 [_ H1]. cbv [mbind M_bind lift result_bind]. split; [done|].
    by apply (f_equal fs) in H1. }
  specialize (H s (runs_at_core s Hq)).
  destruct (create_from_memory rt entities module_name description s)
    as [[p|e] s']; [done|]. destruct H as [-> H]. eauto.
Qed.
End PackagingOutcome.

Section RoundTrip.
Import Props.
Context (rt : Runtime).

End RoundTrip.

(** ** The further theorems at concrete inputs *)

Lemma extract_skills_order_independent_witness :
  (∀ e, e ∈ [Demo.sample; Demo.nameless]
        ↔ e ∈ [Demo.nameless; Demo.sample; Demo.sample])
  ∧ Packager._extract_skills [Demo.sample; Demo.nameless] = Ok ["tool_sample"]
  ∧ ∃ l', Packager._extract_skills [Demo.nameless; Demo.sample; Demo.sample]
          = Ok l'
      ∧ ["tool_sample"] ≡ₚ l'.
Proof.
  assert (H : ∀ e, e ∈ [Demo.sample; Demo.nameless]
                   ↔ e ∈ [Demo.nameless; Demo.sample; Demo.sample]).
  { intros e. rewrite !elem_of_cons, !elem_of_nil. tauto. }
  split; [exact H|]. split; [reflexivity|].
  apply (extract_skills_order_independent
           [Demo.sample; Demo.nameless]
           [Demo.nameless; Demo.sample; Demo.sample] ["tool_sample"] H).
  reflexivity.
Defined.


Lemma metadata_mirrors_chunks_witness :
  ∃ ed, Packager._create_embeddings_data [Demo.sample; Demo.nameless] = Ok ed
    ∧ length (Packager.metadata ed) = length (Packager.chunks ed)
    ∧ ∀ i c, Packager.chunks ed !! i = Some c →
        ∃ m, Packager.metadata ed !! i = Some m ∧ Props.mirrors i c m.
Proof.
  eexists. split; [reflexivity|].
  apply (metadata_mirrors_chunks [Demo.sample; Demo.nameless]). reflexivity.
Defined.

Lemma entity_map_last_write_wins_witness :
  forallb Spec.is_entity [Demo.sample; Demo.nameless; Demo.sample] = true
  ∧ ∃ ed, Packager._create_embeddings_data
            [Demo.sample; Demo.nameless; Demo.sample] = Ok ed
      ∧ NoDup (Packager.entity_map ed).*1.
Proof.
  split; [reflexivity|].
  destruct (entity_map_last_write_wins
              [Demo.sample; Demo.nameless; Demo.sample] eq_refl)
    as (ed & H1 & H2 & _).
  exists ed. auto.
Defined.




Lemma archive_directory_raises_witness :
  fs (Demo.world [("m.mkm", Dir ∅)] []) !! ("m" +:+ ".mkm") = Some (Dir ∅)
  ∧ ∃ e s', Loader.download_skill Demo.rt "m" None
              (Demo.world [("m.mkm", Dir ∅)] []) = (Raise e, s')
      ∧ (e = IsADirectoryError ("m" +:+ ".mkm") ∨ e = OSError).
Proof.
  assert (H : fs (Demo.world [("m.mkm", Dir ∅)] []) !! ("m" +:+ ".mkm")
              = Some (Dir ∅)) by reflexivity.
  split; [exact H|].
  destruct (archive_directory_raises Demo.rt "m" None _ ∅ H)
    as (e & s' & H1 & H2 & _).
  exists e, s'. auto.
Defined.

Lemma scratch_file_raises_witness :
  fs (Demo.world [("temp_m", File []); ("m.mkm", File (Demo.b "ARCHIVE"))] [])
    !! ("temp_" +:+ "m") = Some (File [])
  ∧ fs (Demo.world [("temp_m", File []); ("m.mkm", File (Demo.b "ARCHIVE"))] [])
      !! ("m" +:+ ".mkm") = Some (File (Demo.b "ARCHIVE"))
  ∧ ∃ e s', Loader.download_skill Demo.rt "m" None
              (Demo.world [("temp_m", File []);
                           ("m.mkm", File (Demo.b "ARCHIVE"))] [])
            = (Raise e, s')
      ∧ (e = FileExistsError ("temp_" +:+ "m") ∨ e = OSError).
Proof.
  split; [reflexivity|]. split; [reflexivity|].
  destruct (scratch_file_raises Demo.rt "m" None
              (Demo.world [("temp_m", File []);
                           ("m.mkm", File (Demo.b "ARCHIVE"))] [])
              [] (Demo.b "ARCHIVE") eq_refl eq_refl)
    as (e & s' & H1 & H2 & _).
  exists e, s'. auto.
Defined.

Lemma hash_is_of_whole_content_witness :
  (∀ h a b, sha256_update Demo.rt (sha256_update Demo.rt h a) b
            = sha256_update Demo.rt h (a ++ b))
  ∧ (∀ h, sha256_update Demo.rt h [] = h)
  ∧ fs (Demo.with_archive "ARCHIVE") !! "m.mkm" = Some (File (Demo.b "ARCHIVE"))
  ∧ Spec.quiet (Demo.with_archive "ARCHIVE")
  ∧ ∃ s', _calculate_hash Demo.rt "m.mkm" (Demo.with_archive "ARCHIVE") =
          (Ok (sha256_hexdigest Demo.rt
                 (sha256_update Demo.rt (sha256 Demo.rt) (Demo.b "ARCHIVE"))),
           s').
Proof.
  assert (H1 : ∀ h a b, sha256_update Demo.rt (sha256_update Demo.rt h a) b
                        = sha256_update Demo.rt h (a ++ b)).
  { intros h a b0. symmetry. apply (assoc_L (++)). }
  assert (H2 : ∀ h, sha256_update Demo.rt h [] = h).
  { intros h. apply (right_id_L [] (++)). }
  assert (Hq : Spec.quiet (Demo.with_archive "ARCHIVE")) by constructor.
  split; [exact H1|]. split; [exact H2|]. split; [reflexivity|].
  split; [exact Hq|].
  destruct (hash_is_of_whole_content Demo.rt "m.mkm" (Demo.b "ARCHIVE")
              (Demo.with_archive "ARCHIVE") H1 H2 eq_refl Hq)
    as (s' & H & _).
  exists s'. exact H.
Defined.

Lemma packaging_keeps_other_entries_witness :
  "notes.txt" ≠ "temp_" +:+ "m"
  ∧ "notes.txt" ≠ "m" +:+ ".mkm"
  ∧ fs (Packager.create_from_memory Demo.rt [Demo.sample] "m" "d"
          (Demo.world [("notes.txt", File [])] [])).2 !! "notes.txt"
    = fs (Demo.world [("notes.txt", File [])] []) !! "notes.txt".
Proof.
  assert (H1 : "notes.txt" ≠ "temp_" +:+ "m") by discriminate.
  assert (H2 : "notes.txt" ≠ "m" +:+ ".mkm") by discriminate.
  split; [exact H1|]. split; [exact H2|].
  apply (packaging_keeps_other_entries Demo.rt [Demo.sample] "m" "d"
           "notes.txt" (Demo.world [("notes.txt", File [])] []) H1 H2).
Defined.

Lemma packaging_scratch_file_raises_witness :
  fs (Demo.world [("temp_m", File [])] []) !! ("temp_" +:+ "m") = Some (File [])
  ∧ ∃ e s', Packager.create_from_memory Demo.rt [Demo.sample] "m" "d"
              (Demo.world [("temp_m", File [])] []) = (Raise e, s')
      ∧ fs s' = fs (Demo.world [("temp_m", File [])] []).
Proof.
  split; [reflexivity|].
  destruct (packaging_scratch_file_raises Demo.rt [Demo.sample] "m" "d"
              (Demo.world [("temp_m", File [])] []) [] eq_refl)
    as (e & s' & H1 & _ & H2 & _).
  exists e, s'. auto.
Defined.

Lemma estimate_size_order_independent_witness :
  [Demo.sample; Demo.nameless] ≡ₚ [Demo.nameless; Demo.sample]
  ∧ Packager._estimate_size Demo.rt [Demo.sample; Demo.nameless]
    = Packager._estimate_size Demo.rt [Demo.nameless; Demo.sample].
Proof.
  assert (H : [Demo.sample; Demo.nameless] ≡ₚ [Demo.nameless; Demo.sample])
    by apply perm_swap.
  split; [exact H|].
  apply (estimate_size_order_independent Demo.rt _ _ H).
Defined.


Lemma malformed_entity_aborts_packaging_witness :
  Spec.quiet (Demo.world [] [])
  ∧ forallb Props.skill_ok [Demo.sample; PNone] = false
  ∧ Props.dir_content (fs (Demo.world [] []) !! ("temp_" +:+ "m")) = Some ∅
  ∧ ∃ s', Packager.create_from_memory Demo.rt [Demo.sample; PNone] "m" "d"
            (Demo.world [] []) = (Raise AttributeError, s')
      ∧ fs s' = <["temp_" +:+ "m" := Dir ∅]> (fs (Demo.world [] [])).
Proof.
  assert (Hq : Spec.quiet (Demo.world [] [])) by constructor.
  split; [exact Hq|]. split; [reflexivity|]. split; [reflexivity|].
  apply (malformed_entity_aborts_packaging Demo.rt [Demo.sample; PNone] "m" "d"
           (Demo.world [] []) ∅ Hq eq_refl eq_refl).
Defined.


Lemma repeated_download_replaces_record_witness :
  ∃ s1 s2,
    Loader.download_skill Demo.rt "m" None (Demo.with_archive "ARCHIVE")
    = (Ok true, s1)
    ∧ Loader.download_skill Demo.rt "m" (Some "https://example.org/m.mkm") s1
      = (Ok true, s2)
    ∧ ∃ t, installed_modules s2 =
           <["m" := Spec.installed_record ("m" +:+ ".mkm") t]>
             (installed_modules (Demo.with_archive "ARCHIVE")).
Proof.
  eexists _, _. split; [vm_compute; reflexivity|].
  split; [vm_compute; reflexivity|].
  eapply (repeated_download_replaces_record Demo.rt "m" None
            (Some "https://example.org/m.mkm") (Demo.with_archive "ARCHIVE"));
    vm_compute; reflexivity.
Defined.

Lemma packaging_prints_archive_hash_witness :
  ∃ s', Packager.create_from_memory Demo.rt [Demo.sample] "m" "d"
          (Demo.world [] []) = (Ok "m.mkm", s')
    ∧ "m.mkm" = "m" +:+ ".mkm"
    ∧ ∃ data, fs s' !! "m.mkm" = Some (File data)
        ∧ last (stdout s') =
          Some ("✅ Module created: " +:+ "m.mkm" +:+ " (hash: "
                +:+ prefix16 (Spec.digest Demo.rt data) +:+ "...)").
Proof.
  eexists. split; [vm_compute; reflexivity|].
  apply (packaging_prints_archive_hash Demo.rt [Demo.sample] "m" "d" "m.mkm"
           (Demo.world [] [])).
  vm_compute; reflexivity.
Defined.
